(** * Rag-Agentica: the router / specialists / combiner graph

    A shallow embedding of the notebook [Rag-Agentica.ipynb]: the values the
    node functions exchange, the module namespace the notebook's cells build,
    the five node functions, the graph the last cells wire, and the
    superstep loop that [graph_compilado.invoke] runs over it.

    The language model, the vector stores, [json.loads] and [str] are
    libraries of the notebook; they are gathered in the record [World] and
    every statement is made for an arbitrary world. *)

From Stdlib Require Import Ascii.
From stdpp Require Import gmap strings list fin_maps.

Set Warnings "-register-all".

(** ** Python values *)

(** Values that travel through the graph: what [json.loads] can return and
    what the state dictionary holds. A [dict] with string keys is a finite
    map. *)
Inductive pyval :=
  | PNone
  | PBool (b : bool)
  | PInt (n : Z)
  | PStr (s : string)
  | PList (l : list pyval)
  | PDict (kv : gmap string pyval).

(** A state or update dictionary. *)
Abbreviation pydict := (gmap string pyval).

(** The exceptions that the notebook's code and the graph engine raise. *)
Inductive exn :=
  | NameError (name : string)
  | KeyError (key : pyval)
  | TypeError (what : string)
  | AttributeError (attr : string)
  | ValueError (what : string)
  | InvalidUpdateError
  | GraphRecursionError.

Inductive outcome (A : Type) :=
  | Ok (a : A)
  | Raise (e : exn).
Arguments Ok {A} a.
Arguments Raise {A} e.

(** What a run does that can be seen from outside: nodes entered and left,
    prompts sent to the model, searches sent to a vector store, values printed. *)
Inductive event :=
  | EvEnter (node : string)
  | EvLLM (prompt : string)
  | EvLeave (node : string)
  | EvSearch (collection : string) (k : nat) (query : pyval)
  | EvPrint (v : pyval).

(** ** Computations: a log of events and a value or an exception *)

Definition M (A : Type) : Type := list event * outcome A.

Definition trace {A} (m : M A) : list event := m.1.
Definition result {A} (m : M A) : outcome A := m.2.

Definition emit (e : event) : M unit := ([e], Ok tt).
Definition raise {A} (e : exn) : M A := ([], Raise e).
Definition lift {A} (o : outcome A) : M A := ([], o).

#[global] Instance M_ret : MRet M := λ A a, ([], Ok a).
#[global] Instance M_bind : MBind M := λ A B f m,
  match m with
  | (t, Ok a) => let '(t', r) := f a in (t ++ t', r)
  | (t, Raise e) => (t, Raise e)
  end.

(** ** Strings *)

Definition dq : string := String (Ascii.ascii_of_nat 34) EmptyString.
Definition nl : string := String (Ascii.ascii_of_nat 10) EmptyString.

(** Every line followed by a newline, as in a triple-quoted literal. *)
Definition unlines (ls : list string) : string :=
  foldr (λ s acc, s +:+ nl +:+ acc) EmptyString ls.

(** [sep.join(xs)]. *)
Fixpoint join (sep : string) (xs : list string) : string :=
  match xs with
  | [] => EmptyString
  | [x] => x
  | x :: rest => x +:+ sep +:+ join sep rest
  end.

Definition assoc (k : string) (kw : list (string * string)) : option string :=
  snd <$> find (λ p, bool_decide (p.1 = k)) kw.

Definition prepend (s : string) (o : outcome string) : outcome string :=
  match o with
  | Ok r => Ok (s +:+ r)
  | Raise e => Raise e
  end.

(** [template.format(name=value, ...)]: doubled braces are literal braces, [{name}] is
    replaced by the keyword argument of that name. [field] is the name being
    read when the scan is between braces. *)
Fixpoint str_format (kw : list (string * string)) (field : option string)
    (s : string) {struct s} : outcome string :=
  match field, s with
  | None, EmptyString => Ok EmptyString
  | Some _, EmptyString => Raise (ValueError "expected '}' before end of string")
  | None, String "{"%char (String "{"%char s') => prepend "{" (str_format kw None s')
  | None, String "{"%char s' => str_format kw (Some EmptyString) s'
  | None, String "}"%char (String "}"%char s') => prepend "}" (str_format kw None s')
  | None, String "}"%char _ => Raise (ValueError "Single '}' encountered in format string")
  | None, String c s' => prepend (String c EmptyString) (str_format kw None s')
  | Some f, String "}"%char s' =>
      match assoc f kw with
      | Some v => prepend v (str_format kw None s')
      | None => Raise (KeyError (PStr f))
      end
  | Some f, String c s' => str_format kw (Some (f +:+ String c EmptyString)) s'
  end.

Definition format (template : string) (kw : list (string * string)) : outcome string :=
  str_format kw None template.

(** ** The prompt templates, as the cells write them *)

Definition template_orquestrador : string :=
  unlines
    [ EmptyString;
      "Você é um agente que recebe uma pergunta e decide quais dos seguintes domínios ela envolve:";
      EmptyString;
      "Domínios disponíveis:";
      "- produtos: dúvidas sobre produtos ou serviços, características, preços, disponibilidade, cadastro de produtos, etc.";
      "- processos: dúvidas sobre processos internos, fluxos, processos operacionais, instruções, etc.";
      "- rh: dúvidas sobre folha de pagamento, benefícios, férias, horários, etc.";
      EmptyString;
      "Dada a pergunta abaixo, retorne uma lista de domínios relevantes no seguinte formato JSON:";
      ("{{" +:+ dq +:+ "dominios" +:+ dq +:+ ": [" +:+ dq +:+ "produtos" +:+ dq +:+ ", " +:+ dq +:+ "processos" +:+ dq +:+ "]}}");
      EmptyString;
      "Pergunta:";
      "{question}" ].

(** The three specialist templates of the notebook are the same text except
    for the area named in their first line. *)
Definition template_agente (area : string) : string :=
  unlines
    [ EmptyString;
      "Você é um especialista na documentação de " +:+ area +:+ " da empresa. ";
      "Utilize exclusivamente as informações fornecidas no contexto abaixo para responder à pergunta.";
      EmptyString;
      "Contexto:";
      "{context}";
      EmptyString;
      "Pergunta:";
      "{question}";
      EmptyString;
      ("Se a resposta não estiver no contexto, diga " +:+ dq +:+ "Informação não encontrada no contexto." +:+ dq +:+ ".");
      "Resposta:" ].

Definition template_produtos : string := template_agente "produtos".
Definition template_processos : string := template_agente "processos".
Definition template_rh : string := template_agente "Recursos Humanos".

Definition template_combina : string :=
  unlines
    [ EmptyString;
      "Você é um agente que combina respostas.";
      EmptyString;
      "Dada a pergunta e as respostas dos especialistas, gere uma resposta final, clara e sem repetições.";
      EmptyString;
      "### Pergunta:";
      "{question}";
      EmptyString;
      "### Respostas dos especialistas:";
      "{respostas}";
      EmptyString;
      "### Resposta final:" ].

(** ** The libraries the notebook calls *)

(** What the notebook's code receives from outside it. [generate] is the
    content of [llm.invoke([HumanMessage(content=p)])]; [search c k q] is the
    [page_content] of the documents a retriever over collection [c] with
    [search_kwargs={"k": k}] returns for [q]; [json_loads] is [json.loads],
    with [None] for [json.JSONDecodeError]; [py_str] is [str] on a value that
    is not a string, as [format] applies it; [py_iter] is iteration over a
    value that is not a list (the characters of a string, the keys of a
    dictionary, a [TypeError] for the rest). *)
Record World := {
  generate : string → string;
  search : string → nat → pyval → list string;
  json_loads : string → option pyval;
  py_str : pyval → string;
  py_iter : pyval → outcome (list pyval);
}.

(** ** The module namespace *)

(** [VectorStoreManager(diretorio, persist_directory, collection_name)]. *)
Record VectorStoreManager := {
  diretorio : string;
  persist_directory : string;
  collection_name : string;
}.

(** The objects the cells bind to names. *)
Inductive obj :=
  | OModule (name : string)
  | OClass (name : string)
  | OFunction (name : string)
  | OManager (m : VectorStoreManager)
  | OBoundMethod (self : VectorStoreManager) (method : string)
  | ORetriever (collection : string) (k : nat)
  | OChatModel (model : string)
  | OTypedDict (fields : list (string * string))
  | OPromptTemplate (input_variables : list string) (template : string)
  | OStateGraph
  | OData (v : pyval).

Abbreviation namespace := (gmap string obj).

(** [def get_retriever(self, k=3)]: the retriever of the manager's
    collection; [k] is 3 when the caller gives none. *)
Definition get_retriever (self : VectorStoreManager) (k : option nat) : obj :=
  ORetriever (collection_name self) (default 3 k).

Definition produto_manager : VectorStoreManager :=
  {| diretorio := "data/produtos";
     persist_directory := "vectorstores/produtos";
     collection_name := "produtos" |}.

Definition processos_manager : VectorStoreManager :=
  {| diretorio := "data/processos";
     persist_directory := "vectorstores/processos";
     collection_name := "processos" |}.

Definition rh_manager : VectorStoreManager :=
  {| diretorio := "data/recursos_humanos";
     persist_directory := "vectorstores/recursos_humanos";
     collection_name := "recursos_humanos" |}.

(** [class GraphState(TypedDict)]: the declared fields with their
    annotations. *)
Definition GraphState : list (string * string) :=
  [("question", "str"); ("respostas", "List[str]"); ("answer", "str")].

Definition pergunta : string :=
  "Qual a metodologia de desenvolvimento usada pela coordenadoria de informatica?".

Definition estado_inicial : pydict :=
  <["question" := PStr pergunta]>
    (<["respostas" := PList []]> (<["answer" := PStr EmptyString]> ∅)).

(** The top-level bindings of the code cells, cell by cell and in the order
    in which the statements run. The cell that only calls
    [store_embeddings] binds nothing. *)
Definition cells : list (list (string * obj)) :=
  [ (* imports *)
    [ ("os", OModule "os");
      ("Chroma", OClass "Chroma");
      ("PyPDFDirectoryLoader", OClass "PyPDFDirectoryLoader");
      ("RecursiveCharacterTextSplitter", OClass "RecursiveCharacterTextSplitter");
      ("MistralAIEmbeddings", OClass "MistralAIEmbeddings");
      ("ChatGroq", OClass "ChatGroq");
      ("RetrievalQA", OClass "RetrievalQA");
      ("PromptTemplate", OClass "PromptTemplate");
      ("TypedDict", OClass "TypedDict");
      ("List", OClass "List");
      ("Dict", OClass "Dict");
      ("Document", OClass "Document");
      ("START", OData (PStr "__start__"));
      ("StateGraph", OClass "StateGraph");
      ("END", OData (PStr "__end__"));
      ("HumanMessage", OClass "HumanMessage");
      ("load_dotenv", OFunction "load_dotenv") ];
    [ ("VectorStoreManager", OClass "VectorStoreManager") ];
    [ ("produto_manager", OManager produto_manager) ];
    [ ("processos_manager", OManager processos_manager) ];
    [ ("rh_manager", OManager rh_manager) ];
    [ ("retriever_produto", get_retriever produto_manager (Some 3));
      ("retriever_processos", get_retriever processos_manager (Some 3));
      ("retriever_rh", get_retriever rh_manager (Some 3)) ];
    [ ("llm", OChatModel "llama3-70b-8192") ];
    [ ("GraphState", OTypedDict GraphState) ];
    [ ("prompt_orquestrador", OPromptTemplate ["question"] template_orquestrador);
      ("json", OModule "json");
      ("router", OFunction "router") ];
    (* the three specialist prompts are assigned to one and the same name *)
    [ ("prompt_agente_produtos", OPromptTemplate ["question"; "context"] template_produtos);
      ("prompt_agente_produtos", OPromptTemplate ["question"; "context"] template_processos);
      ("prompt_agente_produtos", OPromptTemplate ["question"; "context"] template_rh) ];
    [ ("agente_processos", OFunction "agente_processos");
      ("agente_produtos", OFunction "agente_produtos");
      ("agente_rh", OFunction "agente_rh") ];
    [ ("prompt_combina", OPromptTemplate ["question"; "respostas"] template_combina);
      ("combina", OFunction "combina") ];
    [ ("graph", OStateGraph);
      ("graph_compilado", OStateGraph);
      ("Image", OClass "Image");
      ("display", OFunction "display") ];
    [ ("pergunta", OData (PStr pergunta));
      ("estado_inicial", OData (PDict estado_inicial)) ] ].

(** An assignment binds the name, replacing an earlier binding. *)
Definition assign (ns : namespace) (b : string * obj) : namespace :=
  <[b.1 := b.2]> ns.

Definition run_cell (ns : namespace) (cell : list (string * obj)) : namespace :=
  foldl assign ns cell.

(** The namespace in which the node functions run when the last cell calls
    [graph_compilado.invoke]. *)
Definition notebook_globals : namespace := foldl run_cell ∅ cells.

(** A global name that is bound nowhere is a [NameError]. None of the names
    looked up this way is a builtin. *)
Definition lookup_name (G : namespace) (x : string) : M obj :=
  match G !! x with
  | Some o => mret o
  | None => raise (NameError x)
  end.

(** ** The node functions *)

Section nodes.
Context (W : World) (G : namespace).

(** A keyword argument as [format] inserts it: a string as it is, another
    value through [str]. *)
Definition text (v : pyval) : string :=
  match v with
  | PStr s => s
  | _ => py_str W v
  end.

(** [d[k]] on a dictionary. *)
Definition getitem (d : pydict) (k : string) : M pyval :=
  match d !! k with
  | Some v => mret v
  | None => raise (KeyError (PStr k))
  end.

(** [v[k]] with a string key, on whatever [json.loads] returned. *)
Definition subscript (v : pyval) (k : string) : M pyval :=
  match v with
  | PDict d => getitem d k
  | PList _ => raise (TypeError "list indices must be integers or slices, not str")
  | PStr _ => raise (TypeError "string indices must be integers, not 'str'")
  | _ => raise (TypeError "object is not subscriptable")
  end.

(** [d.get(k, dflt)]. *)
Definition dict_get (d : pydict) (k : string) (dflt : pyval) : pyval :=
  default dflt (d !! k).

(** [l + [x]]: the left operand has to be a list. *)
Definition list_add (v : pyval) (xs : list pyval) : M pyval :=
  match v with
  | PList l => mret (PList (l ++ xs))
  | _ => raise (TypeError "unsupported operand type(s) for +")
  end.

(** The elements [sep.join(v)] receives; each has to be a string. *)
Definition str_items (v : pyval) : M (list string) :=
  items ← lift (match v with PList l => Ok l | _ => py_iter W v end);
  foldr (λ x acc,
           match x with
           | PStr s => rest ← acc; mret (s :: rest)
           | _ => raise (TypeError "sequence item: expected str instance")
           end) (mret []) items.

(** [p.format]: the attribute exists on a prompt template. *)
Definition template_of (p : obj) : M string :=
  match p with
  | OPromptTemplate _ t => mret t
  | _ => raise (AttributeError "format")
  end.

(** [f()]: of the objects of the notebook, the method [get_retriever]
    bound to a manager is the one that can be called without arguments
    to obtain a retriever. *)
Definition call0 (f : obj) : M obj :=
  match f with
  | OBoundMethod self m =>
      if bool_decide (m = "get_retriever") then mret (get_retriever self None)
      else raise (TypeError "missing required positional argument")
  | _ => raise (TypeError "object cannot be called without arguments")
  end.

(** [r.get_relevant_documents]: the attribute exists on a retriever. *)
Definition retriever_of (r : obj) : M (string * nat) :=
  match r with
  | ORetriever c k => mret (c, k)
  | _ => raise (AttributeError "get_relevant_documents")
  end.

(** [llm.invoke([HumanMessage(content=prompt)]).content]. *)
Definition llm_invoke (prompt : string) : M string :=
  l ← lookup_name G "llm";
  match l with
  | OChatModel _ =>
      _ ← lookup_name G "HumanMessage";
      _ ← emit (EvLLM prompt);
      mret (generate W prompt)
  | _ => raise (AttributeError "invoke")
  end.

(** [json.loads(content)] under [try], with the [except
    json.JSONDecodeError] branch: the fallback value. *)
Definition loads_or_fallback (content : string) : M pyval :=
  j ← lookup_name G "json";
  match j with
  | OModule name =>
      if bool_decide (name = "json") then
        match json_loads W content with
        | Some areas => mret areas
        | None => mret (PDict {["dominios" := PList []]})  (* fallback *)
        end
      else raise (AttributeError "loads")
  | _ => raise (AttributeError "loads")
  end.

Definition router (state : pydict) : M pydict :=
  p ← lookup_name G "prompt_orquestrador";
  t ← template_of p;
  q ← getitem state "question";
  prompt ← lift (format t [("question", text q)]);
  content ← llm_invoke prompt;
  areas ← loads_or_fallback content;
  _ ← emit (EvPrint areas);
  dominios ← subscript areas "dominios";
  mret {["routes" := dominios]}.

(** The body that [agente_processos], [agente_produtos] and [agente_rh]
    share, character for character. *)
Definition agente (state : pydict) : M pydict :=
  f ← lookup_name G "get_retriever";
  r ← call0 f;
  '(c, k) ← retriever_of r;
  q ← getitem state "question";
  _ ← emit (EvSearch c k q);
  let docs := search W c k q in
  let docs_content := join (nl +:+ nl) docs in
  p ← lookup_name G "prompt_agente_produtos";
  t ← template_of p;
  q' ← getitem state "question";
  prompt_value ← lift (format t [("question", text q'); ("context", docs_content)]);
  content ← llm_invoke prompt_value;
  respostas ← list_add (dict_get state "respostas" (PList [])) [PStr content];
  mret {["respostas" := respostas]}.

Definition agente_processos : pydict → M pydict := agente.
Definition agente_produtos : pydict → M pydict := agente.
Definition agente_rh : pydict → M pydict := agente.

Definition combina (state : pydict) : M pydict :=
  respostas ← getitem state "respostas";
  items ← str_items respostas;
  let respostas_texto := join (nl +:+ nl) items in
  p ← lookup_name G "prompt_combina";
  t ← template_of p;
  q ← getitem state "question";
  prompt ← lift (format t [("question", text q); ("respostas", respostas_texto)]);
  content ← llm_invoke prompt;
  mret {["answer" := PStr content]}.

End nodes.

(** ** The graph *)

Definition START : string := "__start__".
Definition END : string := "__end__".

Definition node : Type := pydict → M pydict.

(** A conditional edge: the function that picks the routes and the map from
    what it returns to node names. *)
Record branch := {
  path : pydict → M pyval;
  path_map : gmap string string;
}.

Record StateGraph := {
  channels : list string;
  nodes : list (string * node);
  edges : list (string * string);
  branches : list (string * branch);
}.

(** [StateGraph(schema)]: one channel per declared field. *)
Definition new_graph (schema : list (string * string)) : StateGraph :=
  {| channels := schema.*1; nodes := []; edges := []; branches := [] |}.

Definition add_node (name : string) (f : node) (g : StateGraph) : StateGraph :=
  {| channels := channels g; nodes := nodes g ++ [(name, f)];
     edges := edges g; branches := branches g |}.

Definition add_edge (a b : string) (g : StateGraph) : StateGraph :=
  {| channels := channels g; nodes := nodes g;
     edges := edges g ++ [(a, b)]; branches := branches g |}.

Definition add_conditional_edges (source : string) (f : pydict → M pyval)
    (pm : gmap string string) (g : StateGraph) : StateGraph :=
  {| channels := channels g; nodes := nodes g; edges := edges g;
     branches := branches g ++ [(source, {| path := f; path_map := pm |})] |}.

(** The path map of the conditional edge; its keys are the domains. *)
Definition route_map : gmap string string :=
  <["produtos" := "produtos"]>
    (<["processos" := "processos"]> (<["rh" := "rh"]> ∅)).

Definition domains : gset string := dom route_map.

(** The cell that builds the graph, for any five node functions. *)
Definition wiring (n_router n_produtos n_processos n_rh n_combina : node) : StateGraph :=
  foldl (λ g step, step g) (new_graph GraphState)
    [ add_node "router" n_router;
      add_node "produtos" n_produtos;
      add_node "processos" n_processos;
      add_node "rh" n_rh;
      add_node "combina" n_combina;
      add_edge START "router";
      add_conditional_edges "router" (λ x, getitem x "routes") route_map;
      add_edge "produtos" "combina";
      add_edge "processos" "combina";
      add_edge "rh" "combina";
      add_edge "combina" END ].

Definition graph (W : World) (G : namespace) : StateGraph :=
  wiring (router W G) (agente_produtos W G) (agente_processos W G)
    (agente_rh W G) (combina W G).

(** ** The engine *)

(** Which keys of what a node returns, and of the input, are written to the
    state. [Declared] is the engine of the library: a key that is not a
    channel of the schema is dropped. [Every] keeps every key; it is carried
    along so that what is proved of a run does not hinge on that filter. *)
Inductive schema_mode := Declared | Every.

#[global] Instance schema_mode_eq_dec : EqDecision schema_mode.
Proof. solve_decision. Defined.

Definition for_each {A B} (f : A → M B) : list A → M (list B) :=
  fix go l :=
    match l with
    | [] => mret []
    | x :: l' => y ← f x; ys ← go l'; mret (y :: ys)
    end.

Section engine.
Context (mode : schema_mode) (sched : list string → list string) (g : StateGraph).

Definition written (k : string) : Prop := mode = Every ∨ k ∈ channels g.

#[local] Instance written_dec k : Decision (written k).
Proof. unfold written. apply _. Defined.

Definition writes_of (upd : pydict) : pydict :=
  filter (λ kv, written kv.1) upd.

Definition find_node (name : string) : option node :=
  snd <$> find (λ p, bool_decide (p.1 = name)) (nodes g).

Definition successors (name : string) : list string :=
  (filter (λ e, e.1 = name) (edges g)).*2.

(** One returned route to a node name, through the path map. *)
Definition destination (pm : gmap string string) (x : pyval) : M string :=
  match x with
  | PStr s =>
      match pm !! s with
      | Some d => mret d
      | None => raise (KeyError x)
      end
  | PList _ | PDict _ => raise (TypeError "unhashable type")
  | _ => raise (KeyError x)
  end.

(** What is returned is a list of routes, or one route. *)
Definition destinations (pm : gmap string string) (r : pyval) : M (list string) :=
  for_each (destination pm) (match r with PList l => l | _ => [r] end).

Definition follow (fresh : pydict) (b : branch) : M (list string) :=
  r ← path b fresh;
  destinations (path_map b) r.

(** One task of a superstep: the node runs on the state as it was when the
    superstep began; its conditional edges read that state with the node's
    own writes laid over it. The result is the writes and the nodes
    triggered. *)
Definition run_task (st : pydict) (name : string) : M (pydict * list string) :=
  match find_node name with
  | None => raise (KeyError (PStr name))
  | Some f =>
      _ ← emit (EvEnter name);
      upd ← f st;
      _ ← emit (EvLeave name);
      let w := writes_of upd in
      cond ← for_each (follow (w ∪ st)) (filter (λ nb, nb.1 = name) (branches g)).*2;
      mret (w, successors name ++ concat cond)
  end.

(** The writes of one superstep: a channel holds one value and takes one
    write per superstep. *)
Definition merge (ws : list pydict) : outcome pydict :=
  foldr (λ w acc,
           match acc with
           | Ok m => if decide (w ##ₘ m) then Ok (w ∪ m) else Raise InvalidUpdateError
           | Raise e => Raise e
           end) (Ok ∅) ws.

(** The nodes of the next superstep, each once. *)
Definition next_tasks (triggered : list string) : list string :=
  filter (λ n, n ∈ triggered) (nodes g).*1.

Fixpoint supersteps (limit : nat) (st : pydict) (tasks : list string) : M pydict :=
  match tasks, limit with
  | [], _ => mret st
  | _, 0 => raise GraphRecursionError
  | _, S limit' =>
      rs ← for_each (run_task st) (sched tasks);
      merged ← lift (merge rs.*1);
      supersteps limit' (merged ∪ st) (next_tasks (concat rs.*2))
  end.

Definition recursion_limit : nat := 25.

(** [graph.compile().invoke(input)]. *)
Definition invoke (input : pydict) : M pydict :=
  supersteps recursion_limit (writes_of input) (next_tasks (successors START)).

End engine.

(** ** The last cell *)

(** [resultado = graph_compilado.invoke(estado_inicial)], then the three
    prints. *)
Definition celula_teste (W : World) (mode : schema_mode)
    (sched : list string → list string) : M unit :=
  resultado ← invoke mode sched (graph W notebook_globals) estado_inicial;
  _ ← emit (EvPrint (PStr (nl +:+ "Resposta:")));
  answer ← getitem resultado "answer";
  _ ← emit (EvPrint answer);
  respostas ← getitem resultado "respostas";
  emit (EvPrint respostas).

(** ** A reader for a fragment of JSON

    Used to build concrete worlds: objects, arrays, strings without escapes,
    [true], [false], [null] and integers, with the white space JSON allows.
    A text outside this fragment is given [None]; the examples below stay
    inside it, where [json.loads] returns the same value, and use [None]
    only for texts that are not JSON at all. *)

Definition is_ws (c : ascii) : bool :=
  bool_decide (c = " "%char) || bool_decide (c = ascii_of_nat 9)
  || bool_decide (c = ascii_of_nat 10) || bool_decide (c = ascii_of_nat 13).

Fixpoint skip_ws (s : string) : string :=
  match s with
  | String c s' => if is_ws c then skip_ws s' else s
  | EmptyString => s
  end.

Definition digit_of (c : ascii) : option Z :=
  let n := nat_of_ascii c in
  if bool_decide (48 ≤ n ≤ 57)%nat then Some (Z.of_nat (n - 48)) else None.

(** The characters up to the closing quote. *)
Fixpoint read_string (s : string) : option (string * string) :=
  match s with
  | EmptyString => None
  | String c s' =>
      if bool_decide (c = ascii_of_nat 34) then Some (EmptyString, s')
      else if bool_decide (c = "\"%char) || bool_decide (nat_of_ascii c < 32)%nat then None
      else '(r, rest) ← read_string s'; Some (String c r, rest)
  end.

Fixpoint read_digits (acc : Z) (s : string) : Z * string :=
  match s with
  | String c s' =>
      match digit_of c with
      | Some d => read_digits (10 * acc + d)%Z s'
      | None => (acc, s)
      end
  | EmptyString => (acc, s)
  end.

Definition no_fraction (s : string) : bool :=
  match s with
  | String c _ => negb (bool_decide (c = "."%char) || bool_decide (c = "e"%char)
                        || bool_decide (c = "E"%char))
  | EmptyString => true
  end.

Definition read_nat (s : string) : option (Z * string) :=
  match s with
  | String c s' =>
      d ← digit_of c;
      let '(n, rest) := if bool_decide (d = 0%Z) then (0%Z, s') else read_digits d s' in
      if no_fraction rest then Some (n, rest) else None
  | EmptyString => None
  end.

Definition strip_prefix (p s : string) : option string :=
  if String.prefix p s then Some (String.substring (String.length p) (String.length s - String.length p) s)
  else None.

Fixpoint read_value (fuel : nat) (s : string) : option (pyval * string) :=
  match fuel with
  | 0 => None
  | S fuel' =>
      let elements :=
        fix elements (n : nat) (acc : list pyval) (s : string) : option (pyval * string) :=
          match n with
          | 0 => None
          | S n' =>
              '(v, rest) ← read_value fuel' s;
              match skip_ws rest with
              | String "," rest' => elements n' (acc ++ [v]) rest'
              | String "]" rest' => Some (PList (acc ++ [v]), rest')
              | _ => None
              end
          end in
      let members :=
        fix members (n : nat) (acc : pydict) (s : string) : option (pyval * string) :=
          match n with
          | 0 => None
          | S n' =>
              match skip_ws s with
              | String c s1 =>
                  if bool_decide (c = ascii_of_nat 34) then
                    '(k, s2) ← read_string s1;
                    match skip_ws s2 with
                    | String ":" s3 =>
                        '(v, rest) ← read_value fuel' s3;
                        match skip_ws rest with
                        | String "," rest' => members n' (<[k := v]> acc) rest'
                        | String "}" rest' => Some (PDict (<[k := v]> acc), rest')
                        | _ => None
                        end
                    | _ => None
                    end
                  else None
              | EmptyString => None
              end
          end in
      match skip_ws s with
      | String "[" s1 =>
          match skip_ws s1 with
          | String "]" s2 => Some (PList [], s2)
          | _ => elements fuel' [] s1
          end
      | String "{" s1 =>
          match skip_ws s1 with
          | String "}" s2 => Some (PDict ∅, s2)
          | _ => members fuel' ∅ s1
          end
      | String "-" s1 => '(n, rest) ← read_nat s1; Some (PInt (- n), rest)
      | String c s1 =>
          if bool_decide (c = ascii_of_nat 34) then
            '(r, rest) ← read_string s1; Some (PStr r, rest)
          else
            match strip_prefix "true" (String c s1), strip_prefix "false" (String c s1),
                  strip_prefix "null" (String c s1) with
            | Some rest, _, _ => Some (PBool true, rest)
            | _, Some rest, _ => Some (PBool false, rest)
            | _, _, Some rest => Some (PNone, rest)
            | _, _, _ => '(n, rest) ← read_nat (String c s1); Some (PInt n, rest)
            end
      | EmptyString => None
      end
  end.

Definition read_json (s : string) : option pyval :=
  '(v, rest) ← read_value (S (String.length s)) s;
  match skip_ws rest with
  | EmptyString => Some v
  | _ => None
  end.

(** ** Concrete worlds *)

Definition chars (s : string) : list pyval :=
  (λ c, PStr (String c EmptyString)) <$> String.list_ascii_of_string s.

(** A model that gives the same [reply] to every prompt, and vector stores
    that return [passages] for every query. *)
Definition stub_world (reply : string) (passages : list string) : World :=
  {| generate := λ _, reply;
     search := λ _ k _, take k passages;
     json_loads := read_json;
     py_str := λ _, "<value>";
     py_iter := λ v,
       match v with
       | PStr s => Ok (chars s)
       | PDict d => Ok (PStr <$> (map_to_list d).*1)
       | _ => Raise (TypeError "object is not iterable")
       end |}.

(** [{"dominios": [...]}] as the model would write it. *)
Definition dominios_json (ds : list string) : string :=
  "{" +:+ dq +:+ "dominios" +:+ dq +:+ ": ["
  +:+ join ", " ((λ d, dq +:+ d +:+ dq) <$> ds) +:+ "]}".

(** * The vocabulary of the statements *)

(** [say e m]: [m] with [e] logged before it. *)
Definition say {A} (e : event) (m : M A) : M A := (e :: m.1, m.2).

(** The text a template renders to, where it renders. *)
Definition rendered (t : string) (kw : list (string * string)) : string :=
  match format t kw with
  | Ok s => s
  | Raise _ => EmptyString
  end.

Definition fallback : pyval := PDict {["dominios" := PList []]}.

(** The prompt the router sends for the question [q]. *)
Definition router_prompt (W : World) (q : pyval) : string :=
  rendered template_orquestrador [("question", text W q)].

(** What [areas] is bound to once the [try] statement is left. *)
Definition router_areas (W : World) (q : pyval) : pyval :=
  default fallback (json_loads W (generate W (router_prompt W q))).

(** A route value that stays within the domains: a list of domain names. *)
Definition routes_within (r : pyval) : Prop :=
  ∃ l, r = PList l ∧ ∀ x, x ∈ l → ∃ d, x = PStr d ∧ d ∈ domains.

(** The namespace with [get_retriever] bound to the method of the manager
    [m], the one object of the notebook that carries that name. *)
Definition with_get_retriever (m : VectorStoreManager) : namespace :=
  <["get_retriever" := OBoundMethod m "get_retriever"]> notebook_globals.

(** The prompt a specialist sends once [get_retriever] is bound: the
    template of the last assignment, with the passages of [m]. *)
Definition agente_prompt (W : World) (m : VectorStoreManager) (q : pyval) : string :=
  rendered template_rh
    [("question", text W q);
     ("context", join (nl +:+ nl) (search W (collection_name m) 3 q))].

(** The prompt [combina] sends for the question [q] and the answers. *)
Definition combina_prompt (W : World) (q : pyval) (answers : list string) : string :=
  rendered template_combina
    [("question", text W q); ("respostas", join (nl +:+ nl) answers)].

Definition specialists : list string := ["produtos"; "processos"; "rh"].

(** The specialists that a list of destinations schedules, in the order in
    which the nodes were added. *)
Definition scheduled (ds : list string) : list string :=
  filter (λ n, n ∈ ds) specialists.

(** ** The run of the wired graph, superstep by superstep *)

Section wiring_steps.
Context (mode : schema_mode) (sched : list string → list string).
Context (nr np nq nh nc : node).

Local Abbreviation g := (wiring nr np nq nh nc).

(** The node function behind the name of a specialist. *)
Definition specialist (s : string) : node :=
  if bool_decide (s = "produtos") then np
  else if bool_decide (s = "processos") then nq
  else nh.

(** The task of the router: its update, then the conditional edge on the
    state with the update's writes laid over it. *)
Definition router_task (st : pydict) : M (pydict * list string) :=
  say (EvEnter "router")
    (upd ← nr st;
     say (EvLeave "router")
       (r ← getitem (writes_of mode g upd ∪ st) "routes";
        ds ← destinations route_map r;
        mret (writes_of mode g upd, ds))).

(** The task of a specialist: its update, and the edge to [combina]. *)
Definition specialist_task (st : pydict) (s : string) : M (pydict * list string) :=
  say (EvEnter s)
    (upd ← specialist s st;
     say (EvLeave s) (mret (writes_of mode g upd, ["combina"]))).

Definition combina_task (st : pydict) : M (pydict * list string) :=
  say (EvEnter "combina")
    (upd ← nc st;
     say (EvLeave "combina") (mret (writes_of mode g upd, [END]))).

(** The supersteps after the router's: the scheduled specialists on the
    state [st1], in the order in which they complete, their writes merged,
    then [combina]. With nothing scheduled the run ends at [st1]. *)
Definition join_step (st1 : pydict) (tasks : list string) : M pydict :=
  match tasks with
  | [] => mret st1
  | _ =>
      rs ← for_each (specialist_task st1) (sched tasks);
      merged ← lift (merge rs.*1);
      wt ← combina_task (merged ∪ st1);
      mret (wt.1 ∪ (merged ∪ st1))
  end.

(** The whole run from the state [st0]. *)
Definition run_from (st0 : pydict) : M pydict :=
  wd ← router_task st0;
  join_step (wd.1 ∪ st0) (scheduled wd.2).

End wiring_steps.

Section one_specialist_steps.
Context (mode : schema_mode) (nr na nc : node).

Local Abbreviation writes := (writes_of mode (new_graph GraphState)).

(** The outcome of the supersteps after the router's when the three
    specialists are one function [na] and [n] of them are scheduled. *)
Definition join_result (st1 : pydict) (n : nat) : outcome pydict :=
  match n with
  | 0 => Ok st1
  | S _ =>
      match result (na st1) with
      | Raise e => Raise e
      | Ok upd =>
          match merge (replicate n (writes upd)) with
          | Raise e => Raise e
          | Ok merged =>
              match result (nc (merged ∪ st1)) with
              | Raise e => Raise e
              | Ok upd3 => Ok (writes upd3 ∪ (merged ∪ st1))
              end
          end
      end
  end.

(** The outcome of the whole run. *)
Definition run_result (st0 : pydict) : outcome pydict :=
  match result (nr st0) with
  | Raise e => Raise e
  | Ok upd =>
      match (writes upd ∪ st0) !! "routes" with
      | None => Raise (KeyError (PStr "routes"))
      | Some r =>
          match result (destinations route_map r) with
          | Raise e => Raise e
          | Ok ds => join_result (writes upd ∪ st0) (length (scheduled ds))
          end
      end
  end.

End one_specialist_steps.

(** ** What the engine logs *)

(** The entries of a trace that the engine wrote: a node entered, a node
    left with its update. *)
Inductive mark :=
  | Entered (n : string)
  | Left (n : string).

#[global] Instance mark_eq_dec : EqDecision mark.
Proof. solve_decision. Defined.

Definition mark_of (e : event) : option mark :=
  match e with
  | EvEnter n => Some (Entered n)
  | EvLeave n => Some (Left n)
  | _ => None
  end.

Definition marks (t : list event) : list mark := omap mark_of t.

Definition bracket (n : string) : list mark := [Entered n; Left n].

Definition brackets (l : list string) : list mark := l ≫= bracket.

(** A computation that writes no engine entry: the code of a node. *)
Definition quiet {A} (m : M A) : Prop := marks (trace m) = [].

(** ** Worlds that reply alike *)

(** Two worlds whose model, stores and libraries give the same replies. *)
Definition same_replies (W1 W2 : World) : Prop :=
  (∀ p, generate W1 p = generate W2 p)
  ∧ (∀ c k q, search W1 c k q = search W2 c k q)
  ∧ (∀ s, json_loads W1 s = json_loads W2 s)
  ∧ (∀ v, py_str W1 v = py_str W2 v)
  ∧ (∀ v, py_iter W1 v = py_iter W2 v).

(** ** The texts around the fields of the templates *)

(** What the router's template renders to before the question: the escaped
    braces of the JSON example are single braces. *)
Definition orquestrador_before : string :=
  unlines
    [ EmptyString;
      "Você é um agente que recebe uma pergunta e decide quais dos seguintes domínios ela envolve:";
      EmptyString;
      "Domínios disponíveis:";
      "- produtos: dúvidas sobre produtos ou serviços, características, preços, disponibilidade, cadastro de produtos, etc.";
      "- processos: dúvidas sobre processos internos, fluxos, processos operacionais, instruções, etc.";
      "- rh: dúvidas sobre folha de pagamento, benefícios, férias, horários, etc.";
      EmptyString;
      "Dada a pergunta abaixo, retorne uma lista de domínios relevantes no seguinte formato JSON:";
      ("{" +:+ dq +:+ "dominios" +:+ dq +:+ ": [" +:+ dq +:+ "produtos" +:+ dq +:+ ", " +:+ dq +:+ "processos" +:+ dq +:+ "]}");
      EmptyString;
      "Pergunta:" ].

Definition agente_before (area : string) : string :=
  unlines
    [ EmptyString;
      "Você é um especialista na documentação de " +:+ area +:+ " da empresa. ";
      "Utilize exclusivamente as informações fornecidas no contexto abaixo para responder à pergunta.";
      EmptyString;
      "Contexto:" ].

(** Between the context and the question. *)
Definition agente_mid : string := nl +:+ nl +:+ "Pergunta:" +:+ nl.

(** After the question: the instruction for what the context does not
    hold. *)
Definition agente_after : string :=
  nl +:+ nl
  +:+ ("Se a resposta não estiver no contexto, diga " +:+ dq +:+ "Informação não encontrada no contexto." +:+ dq +:+ ".")
  +:+ nl +:+ "Resposta:" +:+ nl.

Definition combina_before : string :=
  unlines
    [ EmptyString;
      "Você é um agente que combina respostas.";
      EmptyString;
      "Dada a pergunta e as respostas dos especialistas, gere uma resposta final, clara e sem repetições.";
      EmptyString;
      "### Pergunta:" ].

Definition combina_mid : string :=
  nl +:+ nl +:+ "### Respostas dos especialistas:" +:+ nl.

Definition combina_after : string := nl +:+ nl +:+ "### Resposta final:" +:+ nl.

(** * Properties *)

(** ** Laws of the computations *)

Lemma ret_bind {A B} (a : A) (f : A → M B) : mret a ≫= f = f a.
Proof. unfold mret, mbind, M_ret, M_bind. destruct (f a); reflexivity. Qed.

Lemma raise_bind {A B} (e : exn) (f : A → M B) : raise e ≫= f = raise e.
Proof. reflexivity. Qed.

Lemma emit_bind {B} (e : event) (f : unit → M B) : emit e ≫= f = say e (f tt).
Proof. unfold emit, say, mbind, M_bind. destruct (f tt); reflexivity. Qed.

Lemma say_bind {A B} (e : event) (m : M A) (f : A → M B) :
  say e m ≫= f = say e (m ≫= f).
Proof.
  destruct m as [t [a|x]]; unfold say, mbind, M_bind; cbn; [|reflexivity].
  destruct (f a); reflexivity.
Qed.

Lemma lift_bind {A B} (o : outcome A) (f : A → M B) :
  lift o ≫= f = match o with Ok a => f a | Raise e => raise e end.
Proof. destruct o; [apply ret_bind | reflexivity]. Qed.

Lemma bind_assoc {A B C} (m : M A) (f : A → M B) (h : B → M C) :
  (m ≫= f) ≫= h = m ≫= (λ a, f a ≫= h).
Proof.
  destruct m as [t [a|x]]; unfold mbind, M_bind; [|reflexivity].
  destruct (f a) as [t' [b|y]]; [|reflexivity].
  destruct (h b) as [t'' r]. by rewrite app_assoc.
Qed.

Lemma result_bind {A B} (m : M A) (f : A → M B) :
  result (m ≫= f) = match result m with Ok a => result (f a) | Raise e => Raise e end.
Proof.
  destruct m as [t [a|x]]; unfold result, mbind, M_bind; cbn; [|reflexivity].
  destruct (f a); reflexivity.
Qed.

Lemma trace_bind {A B} (m : M A) (f : A → M B) :
  trace (m ≫= f) = trace m ++ match result m with Ok a => trace (f a) | Raise _ => [] end.
Proof.
  destruct m as [t [a|x]]; unfold trace, result, mbind, M_bind; cbn.
  - destruct (f a); reflexivity.
  - by rewrite app_nil_r.
Qed.

Lemma Ok_inj {A} (a b : A) : Ok a = Ok b → a = b.
Proof. by intros [= ->]. Qed.

Lemma result_say {A} e (m : M A) : result (say e m) = result m.
Proof. reflexivity. Qed.

Lemma trace_say {A} e (m : M A) : trace (say e m) = e :: trace m.
Proof. reflexivity. Qed.

(** Rewriting a computation to its events followed by its outcome. *)
Ltac mnorm :=
  repeat first
    [ rewrite ret_bind | rewrite raise_bind | rewrite emit_bind
    | rewrite say_bind | rewrite lift_bind ].

(** ** The namespace the cells leave *)

Lemma globals_get_retriever : notebook_globals !! "get_retriever" = None.
Proof. vm_compute. reflexivity. Qed.

Lemma globals_prompt_agente_produtos :
  notebook_globals !! "prompt_agente_produtos"
  = Some (OPromptTemplate ["question"; "context"] template_rh).
Proof. vm_compute. reflexivity. Qed.

Lemma globals_prompt_orquestrador :
  notebook_globals !! "prompt_orquestrador"
  = Some (OPromptTemplate ["question"] template_orquestrador).
Proof. vm_compute. reflexivity. Qed.

Lemma globals_prompt_combina :
  notebook_globals !! "prompt_combina"
  = Some (OPromptTemplate ["question"; "respostas"] template_combina).
Proof. vm_compute. reflexivity. Qed.

Lemma globals_llm : notebook_globals !! "llm" = Some (OChatModel "llama3-70b-8192").
Proof. vm_compute. reflexivity. Qed.

Lemma globals_HumanMessage : notebook_globals !! "HumanMessage" = Some (OClass "HumanMessage").
Proof. vm_compute. reflexivity. Qed.

Lemma globals_json : notebook_globals !! "json" = Some (OModule "json").
Proof. vm_compute. reflexivity. Qed.

(** The retrievers exist under other names, one per manager, each with
    [k = 3]. *)
Lemma globals_retrievers :
  notebook_globals !! "retriever_produto" = Some (ORetriever "produtos" 3)
  ∧ notebook_globals !! "retriever_processos" = Some (ORetriever "processos" 3)
  ∧ notebook_globals !! "retriever_rh" = Some (ORetriever "recursos_humanos" 3).
Proof. vm_compute. auto. Qed.

(** ** The specialists *)

(** The three specialists are one function: whatever the namespace, they
    consult the same retriever and the same template. *)
Lemma agentes_share_body W G st :
  agente_produtos W G st = agente_processos W G st
  ∧ agente_processos W G st = agente_rh W G st.
Proof. split; reflexivity. Qed.

Lemma agente_NameError W st :
  agente W notebook_globals st = raise (NameError "get_retriever").
Proof.
  unfold agente, lookup_name. rewrite globals_get_retriever. reflexivity.
Qed.

(** ** Rendering the templates *)

Lemma format_orquestrador q :
  format template_orquestrador [("question", q)]
  = Ok (rendered template_orquestrador [("question", q)]).
Proof.
  unfold rendered.
  assert (∃ s, format template_orquestrador [("question", q)] = Ok s) as [s ->]
    by (eexists; vm_compute; reflexivity).
  reflexivity.
Qed.

Lemma format_agente area q c :
  area ∈ ["produtos"; "processos"; "Recursos Humanos"] →
  format (template_agente area) [("question", q); ("context", c)]
  = Ok (rendered (template_agente area) [("question", q); ("context", c)]).
Proof.
  intros Harea. unfold rendered.
  assert (∃ s, format (template_agente area) [("question", q); ("context", c)] = Ok s)
    as [s ->]; [|reflexivity].
  repeat (apply elem_of_cons in Harea as [->|Harea]);
    [eexists; vm_compute; reflexivity ..|by apply elem_of_nil in Harea].
Qed.

Lemma format_combina q r :
  format template_combina [("question", q); ("respostas", r)]
  = Ok (rendered template_combina [("question", q); ("respostas", r)]).
Proof.
  unfold rendered.
  assert (∃ s, format template_combina [("question", q); ("respostas", r)] = Ok s)
    as [s ->] by (eexists; vm_compute; reflexivity).
  reflexivity.
Qed.

(** The three specialist prompts differ, whatever the question and the
    context. *)
Lemma rendered_agente_differ q c :
  rendered template_rh [("question", q); ("context", c)]
  ≠ rendered template_produtos [("question", q); ("context", c)]
  ∧ rendered template_rh [("question", q); ("context", c)]
  ≠ rendered template_processos [("question", q); ("context", c)].
Proof. split; vm_compute; discriminate. Qed.

(** ** The router *)

Lemma llm_invoke_eq W prompt :
  llm_invoke W notebook_globals prompt = say (EvLLM prompt) (mret (generate W prompt)).
Proof.
  unfold llm_invoke, lookup_name.
  rewrite globals_llm, globals_HumanMessage. by mnorm.
Qed.

Lemma router_eq W st q :
  st !! "question" = Some q →
  router W notebook_globals st
  = say (EvLLM (router_prompt W q))
      (say (EvPrint (router_areas W q))
         (dominios ← subscript (router_areas W q) "dominios";
          mret {["routes" := dominios]})).
Proof.
  intros Hq. unfold router, lookup_name, template_of, getitem at 1.
  rewrite globals_prompt_orquestrador, Hq. mnorm.
  rewrite format_orquestrador. mnorm.
  rewrite llm_invoke_eq. mnorm.
  unfold loads_or_fallback, lookup_name. rewrite globals_json. mnorm.
  rewrite bool_decide_eq_true_2 by reflexivity.
  unfold router_areas, router_prompt, fallback.
  destruct (json_loads W _); by mnorm.
Qed.

Lemma router_no_question W st :
  st !! "question" = None →
  router W notebook_globals st = raise (KeyError (PStr "question")).
Proof.
  intros Hq. unfold router, lookup_name, template_of, getitem at 1.
  rewrite globals_prompt_orquestrador, Hq. by mnorm.
Qed.

(** When [json.loads] raises [JSONDecodeError], the fallback is printed and
    the route list is empty. *)
Lemma router_decode_error W st q :
  st !! "question" = Some q →
  json_loads W (generate W (router_prompt W q)) = None →
  router W notebook_globals st
  = say (EvLLM (router_prompt W q))
      (say (EvPrint fallback) (mret {["routes" := PList []]})).
Proof.
  intros Hq Hj. rewrite (router_eq _ _ _ Hq). unfold router_areas. rewrite Hj.
  cbn [default from_option id fallback subscript]. unfold getitem.
  rewrite lookup_singleton_eq. by mnorm.
Qed.

(** When the response is a JSON object, what it holds under ["dominios"]
    is returned as it is. *)
Lemma router_parsed W st q d r :
  st !! "question" = Some q →
  json_loads W (generate W (router_prompt W q)) = Some (PDict d) →
  d !! "dominios" = Some r →
  router W notebook_globals st
  = say (EvLLM (router_prompt W q))
      (say (EvPrint (PDict d)) (mret {["routes" := r]})).
Proof.
  intros Hq Hj Hr. rewrite (router_eq _ _ _ Hq). unfold router_areas. rewrite Hj.
  cbn [default from_option id subscript]. unfold getitem. rewrite Hr. by mnorm.
Qed.

(** A JSON object without the key: the subscript raises after the print. *)
Lemma router_missing_key W st q d :
  st !! "question" = Some q →
  json_loads W (generate W (router_prompt W q)) = Some (PDict d) →
  d !! "dominios" = None →
  router W notebook_globals st
  = say (EvLLM (router_prompt W q))
      (say (EvPrint (PDict d)) (raise (KeyError (PStr "dominios")))).
Proof.
  intros Hq Hj Hr. rewrite (router_eq _ _ _ Hq). unfold router_areas. rewrite Hj.
  cbn [default from_option id subscript]. unfold getitem. rewrite Hr. by mnorm.
Qed.

(** Whatever the namespace, an update the router returns has the one key
    ["routes"]. *)
Lemma router_Ok_inv W G st upd :
  result (router W G st) = Ok upd → ∃ r, upd = {["routes" := r]}.
Proof.
  unfold router. intros H.
  repeat (rewrite result_bind in H;
          match type of H with
          | match ?o with _ => _ end = _ => destruct o; [|discriminate]
          end).
  injection H as <-. eauto.
Qed.

Lemma with_get_retriever_other m x :
  x ≠ "get_retriever" → with_get_retriever m !! x = notebook_globals !! x.
Proof. intros. unfold with_get_retriever. by rewrite lookup_insert_ne. Qed.

Lemma with_get_retriever_self m :
  with_get_retriever m !! "get_retriever" = Some (OBoundMethod m "get_retriever").
Proof. unfold with_get_retriever. by rewrite lookup_insert_eq. Qed.

Lemma llm_invoke_bound W m prompt :
  llm_invoke W (with_get_retriever m) prompt
  = say (EvLLM prompt) (mret (generate W prompt)).
Proof.
  unfold llm_invoke, lookup_name.
  rewrite !with_get_retriever_other by done.
  rewrite globals_llm, globals_HumanMessage. by mnorm.
Qed.

Lemma agente_bound W m st q :
  st !! "question" = Some q →
  agente W (with_get_retriever m) st
  = say (EvSearch (collection_name m) 3 q)
      (say (EvLLM (agente_prompt W m q))
         (respostas ← list_add (dict_get st "respostas" (PList []))
                         [PStr (generate W (agente_prompt W m q))];
          mret {["respostas" := respostas]})).
Proof.
  intros Hq. unfold agente, lookup_name, getitem.
  rewrite with_get_retriever_self. mnorm.
  cbn [call0]. rewrite bool_decide_eq_true_2 by reflexivity. mnorm.
  cbn [get_retriever retriever_of default from_option id]. mnorm.
  rewrite Hq. mnorm.
  rewrite with_get_retriever_other by done.
  rewrite globals_prompt_agente_produtos. mnorm. cbn [template_of]. mnorm.
  unfold template_rh at 1.
  rewrite format_agente by (repeat constructor). mnorm.
  rewrite llm_invoke_bound. by mnorm.
Qed.

(** ** Runs of the graph *)

Lemma bind_ext {A B} (m : M A) (f h : A → M B) :
  (∀ a, f a = h a) → m ≫= f = m ≫= h.
Proof.
  intros H. destruct m as [t [a|e]]; [|reflexivity].
  unfold mbind, M_bind. by rewrite H.
Qed.

Lemma say_ext {A} e (m1 m2 : M A) : m1 = m2 → say e m1 = say e m2.
Proof. by intros ->. Qed.

Lemma for_each_nil {A B} (f : A → M B) : for_each f [] = mret [].
Proof. reflexivity. Qed.

Lemma for_each_cons {A B} (f : A → M B) x l :
  for_each f (x :: l) = y ← f x; ys ← for_each f l; mret (y :: ys).
Proof. reflexivity. Qed.

Lemma for_each_singleton {A B} (f : A → M B) x :
  for_each f [x] = y ← f x; mret [y].
Proof.
  rewrite for_each_cons. apply bind_ext. intros y.
  rewrite for_each_nil. by rewrite ret_bind.
Qed.

Lemma for_each_ext {A B} (f h : A → M B) l :
  (∀ x, x ∈ l → f x = h x) → for_each f l = for_each h l.
Proof.
  induction l as [|x l IH]; intros H; [reflexivity|].
  rewrite !for_each_cons, H, IH; [reflexivity| |left].
  intros y Hy. apply H. by right.
Qed.

Section wiring_runs.
Context (mode : schema_mode) (sched : list string → list string).
Context (nr np nq nh nc : node).

Local Abbreviation g := (wiring nr np nq nh nc).
Local Abbreviation spec_node := (specialist np nq nh).
Local Abbreviation rtask := (router_task mode nr np nq nh nc).
Local Abbreviation stask := (specialist_task mode nr np nq nh nc).
Local Abbreviation ctask := (combina_task mode nr np nq nh nc).
Local Abbreviation jstep := (join_step mode sched nr np nq nh nc).
Local Abbreviation run := (run_from mode sched nr np nq nh nc).

Lemma wiring_channels : channels g = ["question"; "respostas"; "answer"].
Proof. reflexivity. Qed.

Lemma wiring_entry : next_tasks g (successors g START) = ["router"].
Proof. reflexivity. Qed.

Lemma next_tasks_none : next_tasks g [] = [].
Proof. reflexivity. Qed.

Lemma next_tasks_END : next_tasks g [END] = [].
Proof. reflexivity. Qed.

Lemma run_task_router st : run_task mode g st "router" = rtask st.
Proof.
  unfold run_task, router_task.
  change (find_node g "router") with (Some nr). cbv beta iota.
  rewrite emit_bind. apply say_ext, bind_ext. intros upd.
  rewrite emit_bind. apply say_ext.
  change ((filter (λ nb, nb.1 = "router") (branches g)).*2)
    with [{| path := λ x, getitem x "routes"; path_map := route_map |}].
  change (successors g "router") with (@nil string).
  rewrite for_each_singleton, bind_assoc. unfold follow at 1. cbn [path path_map].
  etrans; [apply bind_assoc|]. apply bind_ext. intros r.
  apply bind_ext. intros ds. rewrite ret_bind.
  cbn [concat app]. by rewrite app_nil_r.
Qed.

Lemma run_task_specialist st s :
  s ∈ specialists → run_task mode g st s = stask st s.
Proof.
  intros Hs. unfold specialists in Hs.
  repeat (apply elem_of_cons in Hs as [->|Hs]); [..|by apply elem_of_nil in Hs].
  all: unfold run_task, specialist_task.
  - change (find_node g "produtos") with (Some np). cbv beta iota.
    change (spec_node "produtos") with np.
    change ((filter (λ nb, nb.1 = "produtos") (branches g)).*2) with (@nil branch).
    change (successors g "produtos") with ["combina"].
    rewrite emit_bind. apply say_ext, bind_ext. intros upd.
    rewrite emit_bind. apply say_ext. by rewrite for_each_nil, ret_bind.
  - change (find_node g "processos") with (Some nq). cbv beta iota.
    change (spec_node "processos") with nq.
    change ((filter (λ nb, nb.1 = "processos") (branches g)).*2) with (@nil branch).
    change (successors g "processos") with ["combina"].
    rewrite emit_bind. apply say_ext, bind_ext. intros upd.
    rewrite emit_bind. apply say_ext. by rewrite for_each_nil, ret_bind.
  - change (find_node g "rh") with (Some nh). cbv beta iota.
    change (spec_node "rh") with nh.
    change ((filter (λ nb, nb.1 = "rh") (branches g)).*2) with (@nil branch).
    change (successors g "rh") with ["combina"].
    rewrite emit_bind. apply say_ext, bind_ext. intros upd.
    rewrite emit_bind. apply say_ext. by rewrite for_each_nil, ret_bind.
Qed.

Lemma run_task_combina st : run_task mode g st "combina" = ctask st.
Proof.
  unfold run_task, combina_task.
  change (find_node g "combina") with (Some nc). cbv beta iota.
  change ((filter (λ nb, nb.1 = "combina") (branches g)).*2) with (@nil branch).
  change (successors g "combina") with [END].
  rewrite emit_bind. apply say_ext, bind_ext. intros upd.
  rewrite emit_bind. apply say_ext. by rewrite for_each_nil, ret_bind.
Qed.

(** *** The run, superstep by superstep *)

Context (Hsched : ∀ l, sched l ≡ₚ l).

Lemma sched_nil : sched [] = [].
Proof. apply Permutation_nil_r, Hsched. Qed.

Lemma sched_singleton x : sched [x] = [x].
Proof. apply Permutation_singleton_r, Hsched. Qed.

Lemma sched_elem_of x l : x ∈ sched l ↔ x ∈ l.
Proof. by rewrite (Hsched l). Qed.

Lemma sched_length l : length (sched l) = length l.
Proof. by rewrite (Hsched l). Qed.

Lemma supersteps_nil limit st : supersteps mode sched g limit st [] = mret st.
Proof. by destruct limit. Qed.

Lemma supersteps_cons limit st x tasks :
  supersteps mode sched g (S limit) st (x :: tasks)
  = rs ← for_each (run_task mode g st) (sched (x :: tasks));
    merged ← lift (merge rs.*1);
    supersteps mode sched g limit (merged ∪ st) (next_tasks g (concat rs.*2)).
Proof. reflexivity. Qed.

Lemma merge_singleton (w : pydict) : merge [w] = Ok w.
Proof.
  unfold merge. cbn [foldr].
  rewrite decide_True by apply map_disjoint_empty_r.
  by rewrite (right_id_L ∅ (∪)).
Qed.

Lemma bind_ext_result {A B} (m : M A) (f h : A → M B) :
  (∀ a, result m = Ok a → f a = h a) → m ≫= f = m ≫= h.
Proof.
  intros H. destruct m as [t [a|e]]; [|reflexivity].
  unfold mbind, M_bind. by rewrite H.
Qed.

Lemma result_bind_Ok {A B} (m : M A) (f : A → M B) b :
  result (m ≫= f) = Ok b ↔ ∃ a, result m = Ok a ∧ result (f a) = Ok b.
Proof.
  rewrite result_bind. destruct (result m) as [a|e].
  - split; [eauto|]. by intros (a' & [= <-] & H).
  - split; [discriminate|]. by intros (a' & [=] & _).
Qed.

(** What the path map can give is a spec_node. *)
Lemma route_map_specialist s d : route_map !! s = Some d → d ∈ specialists.
Proof.
  unfold route_map, specialists. rewrite !lookup_insert_Some, lookup_empty.
  intros [[_ <-]|[_ [[_ <-]|[_ [[_ <-]|[_ [=]]]]]]];
    rewrite !elem_of_cons; auto.
Qed.

Lemma destinations_specialists r ds :
  result (destinations route_map r) = Ok ds → ∀ d, d ∈ ds → d ∈ specialists.
Proof.
  unfold destinations. generalize (match r with PList l => l | _ => [r] end).
  intros l. revert ds. induction l as [|x l IH]; intros ds.
  - intros [= <-] d Hd. by apply elem_of_nil in Hd.
  - rewrite for_each_cons. intros (d0 & Hd0 & (ds' & Hds' & [= <-])%result_bind_Ok)%result_bind_Ok.
    intros d [->|Hd]%elem_of_cons; [|by eapply IH].
    destruct x; try discriminate. cbn in Hd0.
    destruct (route_map !! s) eqn:Hs; [|discriminate].
    injection Hd0 as <-. by eapply route_map_specialist.
Qed.

Lemma router_task_Ok st w ds :
  result (rtask st) = Ok (w, ds) →
  ∃ upd r, result (nr st) = Ok upd ∧ w = writes_of mode g upd
           ∧ (w ∪ st) !! "routes" = Some r
           ∧ result (destinations route_map r) = Ok ds.
Proof.
  unfold router_task. rewrite result_say.
  intros (upd & Hupd & H)%result_bind_Ok. rewrite result_say in H.
  apply result_bind_Ok in H as (r & Hr & H).
  apply result_bind_Ok in H as (ds' & Hds & [= <- <-]).
  exists upd, r. repeat split; [done| |done].
  unfold getitem in Hr. destruct (_ !! "routes"); [|discriminate].
  by injection Hr as <-.
Qed.

Lemma scheduled_specialists ds s : s ∈ scheduled ds → s ∈ specialists.
Proof. unfold scheduled. by intros [_ ?]%list_elem_of_filter. Qed.

Lemma next_tasks_scheduled ds :
  (∀ d, d ∈ ds → d ∈ specialists) → next_tasks g ds = scheduled ds.
Proof.
  intros Hds.
  assert (Hout : ∀ n, n ∉ specialists → n ∉ ds) by (intros n Hn H; by apply Hn, Hds).
  unfold next_tasks, scheduled.
  change ((nodes g).*1) with (["router"] ++ specialists ++ ["combina"]).
  rewrite !filter_app.
  rewrite (filter_cons_False _ "router"), (filter_cons_False _ "combina").
  - by rewrite filter_nil, app_nil_r.
  - apply Hout. unfold specialists. rewrite !not_elem_of_cons.
    repeat split; try discriminate. apply not_elem_of_nil.
  - apply Hout. unfold specialists. rewrite !not_elem_of_cons.
    repeat split; try discriminate. apply not_elem_of_nil.
Qed.

Lemma next_tasks_combina (triggered : list string) :
  triggered ≠ [] → (∀ x, x ∈ triggered → x = "combina") →
  next_tasks g triggered = ["combina"].
Proof.
  intros Hne Hall. unfold next_tasks.
  change ((nodes g).*1) with ["router"; "produtos"; "processos"; "rh"; "combina"].
  rewrite !filter_cons_False by (intros H%Hall; discriminate).
  rewrite filter_cons_True; [done|].
  destruct triggered as [|x l]; [done|]. rewrite (Hall x) by left. left.
Qed.

Lemma specialist_task_Ok st s w trig :
  result (stask st s) = Ok (w, trig) →
  trig = ["combina"]
  ∧ ∃ upd, result (spec_node s st) = Ok upd ∧ w = writes_of mode g upd.
Proof.
  unfold specialist_task. rewrite result_say.
  intros (upd & Hupd & [= <- <-])%result_bind_Ok. eauto.
Qed.

Lemma specialist_tasks_Ok st l rs :
  result (for_each (stask st) l) = Ok rs →
  length rs = length l ∧ concat rs.*2 = replicate (length l) "combina".
Proof.
  revert rs. induction l as [|s l IH]; intros rs.
  - by intros [= <-].
  - rewrite for_each_cons.
    intros ([w trig] & Hs & (rs' & Hrs' & [= <-])%result_bind_Ok)%result_bind_Ok.
    apply specialist_task_Ok in Hs as [-> _].
    destruct (IH _ Hrs') as [Hlen Hall]. cbn. by rewrite Hlen, Hall.
Qed.

Lemma combina_task_Ok st w trig :
  result (ctask st) = Ok (w, trig) → trig = [END].
Proof.
  unfold combina_task. rewrite result_say.
  by intros (upd & Hupd & [= <- <-])%result_bind_Ok.
Qed.

Lemma supersteps_combina limit st :
  supersteps mode sched g (S (S limit)) st ["combina"]
  = wt ← ctask st; mret (wt.1 ∪ st).
Proof.
  rewrite supersteps_cons, sched_singleton, for_each_singleton, run_task_combina.
  etrans; [apply bind_assoc|]. apply bind_ext_result. intros [w trig] Hwt.
  rewrite ret_bind. apply combina_task_Ok in Hwt as ->.
  cbn [fmap list_fmap fst snd concat app].
  rewrite merge_singleton, lift_bind. apply supersteps_nil.
Qed.

Lemma supersteps_join limit st1 tasks :
  (∀ s, s ∈ tasks → s ∈ specialists) →
  supersteps mode sched g (S (S (S limit))) st1 tasks = jstep st1 tasks.
Proof.
  intros Htasks. destruct tasks as [|x l]; [reflexivity|].
  rewrite supersteps_cons. unfold join_step.
  rewrite (for_each_ext (run_task mode g st1) (stask st1)).
  2:{ intros s Hs. apply (proj1 (sched_elem_of _ _)) in Hs.
      by apply run_task_specialist, Htasks. }
  apply bind_ext_result. intros rs Hrs.
  apply bind_ext. intros merged.
  apply specialist_tasks_Ok in Hrs as [_ ->].
  rewrite sched_length. cbn [length replicate].
  rewrite next_tasks_combina; [apply supersteps_combina|done|].
  intros y [->|[-> _]%elem_of_replicate]%elem_of_cons; reflexivity.
Qed.

(** A run that went through the specialists ends with the writes of
    [combina] laid over the state [combina] ran on. *)
Lemma join_step_Ok st1 tasks st :
  tasks ≠ [] → result (jstep st1 tasks) = Ok st →
  ∃ st2 upd, result (nc st2) = Ok upd ∧ st = writes_of mode g upd ∪ st2.
Proof.
  intros Hne. destruct tasks as [|x l]; [done|]. unfold join_step.
  intros (rs & _ & (merged & _ & H)%result_bind_Ok)%result_bind_Ok.
  apply result_bind_Ok in H as ([w trig] & Hwt & [= <-]).
  unfold combina_task in Hwt. rewrite result_say in Hwt.
  apply result_bind_Ok in Hwt as (upd & Hupd & [= <- _]).
  by exists (merged ∪ st1), upd.
Qed.

Lemma recursion_limit_eq : recursion_limit = S (S (S (S 21))).
Proof. reflexivity. Qed.

(** [invoke] is the run from the input as the schema lets it in. *)
Lemma invoke_eq input :
  invoke mode sched g input = run (writes_of mode g input).
Proof.
  unfold invoke, run_from.
  rewrite wiring_entry, recursion_limit_eq, supersteps_cons.
  rewrite sched_singleton, for_each_singleton, run_task_router.
  etrans; [apply bind_assoc|]. apply bind_ext_result. intros [w ds] Hwd.
  rewrite ret_bind. cbn [fmap list_fmap fst snd concat app].
  rewrite merge_singleton, lift_bind, app_nil_r.
  apply router_task_Ok in Hwd as (upd & r & _ & _ & _ & Hds).
  rewrite next_tasks_scheduled by by apply destinations_specialists with r.
  apply supersteps_join. apply scheduled_specialists.
Qed.

End wiring_runs.

(** ** The log of a run *)

Lemma marks_app t1 t2 : marks (t1 ++ t2) = marks t1 ++ marks t2.
Proof. apply omap_app. Qed.

Lemma marks_bind {A B} (m : M A) (f : A → M B) :
  marks (trace (m ≫= f))
  = marks (trace m) ++ match result m with Ok a => marks (trace (f a)) | Raise _ => [] end.
Proof. rewrite trace_bind, marks_app. by destruct (result m). Qed.

Lemma quiet_ret {A} (a : A) : quiet (mret a : M A).
Proof. reflexivity. Qed.

Lemma quiet_raise {A} e : quiet (raise e : M A).
Proof. reflexivity. Qed.

Lemma quiet_lift {A} (o : outcome A) : quiet (lift o).
Proof. reflexivity. Qed.

Lemma quiet_bind {A B} (m : M A) (f : A → M B) :
  quiet m → (∀ a, quiet (f a)) → quiet (m ≫= f).
Proof.
  unfold quiet. intros Hm Hf. rewrite marks_bind, Hm.
  destruct (result m); [apply Hf|reflexivity].
Qed.

Ltac quiet_step :=
  first
    [ apply quiet_ret | apply quiet_raise | apply quiet_lift
    | reflexivity
    | apply quiet_bind; [|intros ?]
    | match goal with
      | |- quiet (match ?x with _ => _ end) => destruct x
      | |- quiet (if ?b then _ else _) => destruct b
      | |- quiet (let '(_, _) := ?x in _) => destruct x
      end ].

Lemma quiet_lookup_name G x : quiet (lookup_name G x).
Proof. unfold lookup_name. repeat quiet_step. Qed.

Lemma quiet_getitem d k : quiet (getitem d k).
Proof. unfold getitem. repeat quiet_step. Qed.

Lemma quiet_llm_invoke W G p : quiet (llm_invoke W G p).
Proof.
  unfold llm_invoke. apply quiet_bind; [apply quiet_lookup_name|]. intros l.
  destruct l; try apply quiet_raise.
  apply quiet_bind; [apply quiet_lookup_name|]. intros _. reflexivity.
Qed.

Lemma quiet_str_items W v : quiet (str_items W v).
Proof.
  unfold str_items. apply quiet_bind; [apply quiet_lift|]. intros items.
  induction items as [|x items IH]; [reflexivity|].
  cbn [foldr]. destruct x; try apply quiet_raise.
  apply quiet_bind; [apply IH|]. intros. apply quiet_ret.
Qed.

Lemma quiet_router W G st : quiet (router W G st).
Proof.
  unfold router.
  apply quiet_bind; [apply quiet_lookup_name|]. intros p.
  apply quiet_bind; [unfold template_of; repeat quiet_step|]. intros t.
  apply quiet_bind; [apply quiet_getitem|]. intros q.
  apply quiet_bind; [apply quiet_lift|]. intros prompt.
  apply quiet_bind; [apply quiet_llm_invoke|]. intros content.
  apply quiet_bind.
  { unfold loads_or_fallback. apply quiet_bind; [apply quiet_lookup_name|].
    intros j. repeat quiet_step. }
  intros areas. apply quiet_bind; [reflexivity|]. intros _.
  apply quiet_bind; [|intros; apply quiet_ret].
  unfold subscript. destruct areas; try apply quiet_raise. apply quiet_getitem.
Qed.

Lemma quiet_agente W G st : quiet (agente W G st).
Proof.
  unfold agente.
  apply quiet_bind; [apply quiet_lookup_name|]. intros f.
  apply quiet_bind; [unfold call0; repeat quiet_step|]. intros r.
  apply quiet_bind; [unfold retriever_of; repeat quiet_step|]. intros [c k].
  apply quiet_bind; [apply quiet_getitem|]. intros q.
  apply quiet_bind; [reflexivity|]. intros _.
  apply quiet_bind; [apply quiet_lookup_name|]. intros p.
  apply quiet_bind; [unfold template_of; repeat quiet_step|]. intros t.
  apply quiet_bind; [apply quiet_getitem|]. intros q'.
  apply quiet_bind; [apply quiet_lift|]. intros prompt.
  apply quiet_bind; [apply quiet_llm_invoke|]. intros content.
  apply quiet_bind; [unfold list_add; repeat quiet_step|]. intros. apply quiet_ret.
Qed.

Lemma quiet_combina W G st : quiet (combina W G st).
Proof.
  unfold combina.
  apply quiet_bind; [apply quiet_getitem|]. intros r.
  apply quiet_bind; [apply quiet_str_items|]. intros items.
  apply quiet_bind; [apply quiet_lookup_name|]. intros p.
  apply quiet_bind; [unfold template_of; repeat quiet_step|]. intros t.
  apply quiet_bind; [apply quiet_getitem|]. intros q.
  apply quiet_bind; [apply quiet_lift|]. intros prompt.
  apply quiet_bind; [apply quiet_llm_invoke|]. intros. apply quiet_ret.
Qed.

Lemma quiet_for_each {A B} (f : A → M B) l :
  (∀ x, quiet (f x)) → quiet (for_each f l).
Proof.
  intros Hf. induction l as [|x l IH]; [reflexivity|].
  rewrite for_each_cons. apply quiet_bind; [apply Hf|]. intros y.
  apply quiet_bind; [apply IH|]. intros. apply quiet_ret.
Qed.

Lemma quiet_destinations pm r : quiet (destinations pm r).
Proof.
  unfold destinations. apply quiet_for_each. intros x.
  unfold destination. destruct x; try apply (@quiet_raise string).
  destruct (pm !! s); [apply quiet_ret|apply quiet_raise].
Qed.

Lemma NoDup_specialists : NoDup specialists.
Proof. apply (bool_decide_unpack _). vm_compute. exact I. Qed.

Section wiring_log.
Context (mode : schema_mode) (sched : list string → list string).
Context (nr np nq nh nc : node).
Context (Hsched : ∀ l, sched l ≡ₚ l).
Context (Qr : ∀ st, quiet (nr st)) (Qp : ∀ st, quiet (np st))
        (Qq : ∀ st, quiet (nq st)) (Qh : ∀ st, quiet (nh st))
        (Qc : ∀ st, quiet (nc st)).

Local Abbreviation g := (wiring nr np nq nh nc).
Local Abbreviation spec_node := (specialist np nq nh).
Local Abbreviation rtask := (router_task mode nr np nq nh nc).
Local Abbreviation stask := (specialist_task mode nr np nq nh nc).
Local Abbreviation ctask := (combina_task mode nr np nq nh nc).
Local Abbreviation jstep := (join_step mode sched nr np nq nh nc).
Local Abbreviation run := (run_from mode sched nr np nq nh nc).

Lemma quiet_specialist s st : quiet (spec_node s st).
Proof. unfold specialist. repeat case_bool_decide; auto. Qed.

Lemma marks_say {A} e (m : M A) :
  marks (trace (say e m)) = from_option (λ k, [k]) [] (mark_of e) ++ marks (trace m).
Proof.
  rewrite trace_say. change (e :: trace m) with ([e] ++ trace m).
  by rewrite marks_app.
Qed.

Lemma marks_router_task st :
  marks (trace (rtask st))
  = Entered "router" :: match result (nr st) with Ok _ => [Left "router"] | Raise _ => [] end.
Proof.
  unfold router_task. rewrite marks_say, marks_bind, (Qr st).
  cbn [mark_of from_option app]. f_equal.
  destruct (result (nr st)) as [upd|e]; [|reflexivity].
  rewrite marks_say. cbn [mark_of from_option app]. f_equal.
  apply quiet_bind; [apply quiet_getitem|]. intros r.
  apply quiet_bind; [apply quiet_destinations|]. intros. apply quiet_ret.
Qed.

Lemma marks_specialist_task st s :
  marks (trace (stask st s))
  = Entered s :: match result (spec_node s st) with Ok _ => [Left s] | Raise _ => [] end.
Proof.
  unfold specialist_task.
  rewrite marks_say, marks_bind, (quiet_specialist s st).
  cbn [mark_of from_option app]. f_equal.
Qed.

Lemma result_specialist_task st s :
  result (stask st s)
  = match result (spec_node s st) with
    | Ok upd => Ok (writes_of mode g upd, ["combina"])
    | Raise e => Raise e
    end.
Proof.
  unfold specialist_task. rewrite result_say, result_bind.
  by destruct (result (spec_node s st)).
Qed.

Lemma marks_combina_task st :
  marks (trace (ctask st))
  = Entered "combina" :: match result (nc st) with Ok _ => [Left "combina"] | Raise _ => [] end.
Proof.
  unfold combina_task. rewrite marks_say, marks_bind, (Qc st).
  cbn [mark_of from_option app]. f_equal.
Qed.

(** The specialists of one superstep are entered and left one after the
    other as far as they go; when all return, all were entered and left. *)
Lemma marks_specialist_tasks st l :
  marks (trace (for_each (stask st) l)) `prefix_of` brackets l
  ∧ (∀ rs, result (for_each (stask st) l) = Ok rs →
       marks (trace (for_each (stask st) l)) = brackets l).
Proof.
  induction l as [|s l [IHp IHe]].
  { split; [apply prefix_nil|reflexivity]. }
  rewrite for_each_cons, marks_bind, result_bind, marks_specialist_task.
  rewrite result_specialist_task.
  change (brackets (s :: l)) with (Entered s :: Left s :: brackets l).
  destruct (result (spec_node s st)) as [upd|e].
  2:{ split; [apply prefix_cons, prefix_nil|discriminate]. }
  rewrite marks_bind, result_bind.
  destruct (result (for_each (stask st) l)) as [rs'|e] eqn:Hrs.
  - cbn -[brackets]. rewrite app_nil_r. rewrite (IHe rs') by done. by split.
  - cbn -[brackets]. rewrite app_nil_r. split; [by do 2 apply prefix_cons|discriminate].
Qed.

(** After the router: the scheduled specialists, then [combina], which is
    entered only when there were specialists and all of them returned. *)
Lemma marks_join_step st1 tasks :
  marks (trace (jstep st1 tasks))
    `prefix_of` brackets (sched tasks) ++ bracket "combina"
  ∧ (Entered "combina" ∈ marks (trace (jstep st1 tasks)) → tasks ≠ [])
  ∧ (∀ st, tasks ≠ [] → result (jstep st1 tasks) = Ok st →
       marks (trace (jstep st1 tasks))
       = brackets (sched tasks) ++ bracket "combina").
Proof.
  destruct tasks as [|x l].
  { split; [apply prefix_nil|]. split; [|done]. by intros ?%elem_of_nil. }
  unfold join_step.
  destruct (marks_specialist_tasks st1 (sched (x :: l))) as [Hp He].
  rewrite marks_bind, result_bind.
  destruct (result (for_each (stask st1) (sched (x :: l)))) as [rs|e] eqn:Hrs.
  2:{ rewrite app_nil_r. split; [by apply prefix_app_r|]. split; [done|discriminate]. }
  rewrite (He rs) by done. rewrite marks_bind, result_bind.
  destruct (merge rs.*1) as [merged|e]; cbn [lift trace result fst snd marks omap list_omap app].
  2:{ split; [apply prefix_app, prefix_nil|]. split; [done|discriminate]. }
  rewrite marks_bind, result_bind, marks_combina_task.
  unfold combina_task. rewrite result_say, result_bind.
  destruct (result (nc (merged ∪ st1))) as [upd|e].
  - cbn [result say snd mret M_ret trace fst marks omap list_omap app].
    split; [done|]. split; done.
  - rewrite app_nil_r.
    split; [apply prefix_app, prefix_cons, prefix_nil|]. split; [done|discriminate].
Qed.

(** The log of a run. [specs] are the specialists of the second superstep
    in the order in which they complete. *)
Lemma run_log st0 :
  ∃ specs,
    marks (trace (run st0))
      `prefix_of` bracket "router" ++ brackets specs ++ bracket "combina"
    ∧ NoDup specs
    ∧ (∀ s, s ∈ specs → s ∈ specialists)
    ∧ (Entered "combina" ∈ marks (trace (run st0)) →
         specs ≠ []
         ∧ ∃ upd r ds,
             result (nr st0) = Ok upd
             ∧ (writes_of mode g upd ∪ st0) !! "routes" = Some r
             ∧ result (destinations route_map r) = Ok ds
             ∧ ∀ s, s ∈ specs ↔ s ∈ specialists ∧ s ∈ ds)
    ∧ (∀ st, result (run st0) = Ok st →
         marks (trace (run st0))
         = bracket "router"
           ++ match specs with [] => [] | _ => brackets specs ++ bracket "combina" end)
    ∧ (∀ st, result (run st0) = Ok st → specs ≠ [] →
         ∃ st2 upd, result (nc st2) = Ok upd ∧ st = writes_of mode g upd ∪ st2).
Proof.
  unfold run_from. rewrite marks_bind, result_bind, marks_router_task.
  destruct (result (rtask st0)) as [[w ds]|e] eqn:Hwd.
  - pose proof (router_task_Ok _ _ _ _ _ _ _ _ _ Hwd) as (upd & r & Hupd & -> & Hr & Hds).
    rewrite Hupd. cbn [fst snd].
    destruct (marks_join_step (writes_of mode g upd ∪ st0) (scheduled ds))
      as (Hp & Hc & Hfull).
    exists (sched (scheduled ds)).
    split; [by apply (prefix_app (bracket "router"))|].
    split. { rewrite (Hsched _). apply NoDup_filter, NoDup_specialists. }
    split. { intros s Hs. apply (proj1 (sched_elem_of _ Hsched _ _)) in Hs.
             by eapply scheduled_specialists. }
    split; [|split].
    + intros [Hin|Hin]%(elem_of_app (bracket "router")).
      { unfold bracket in Hin. rewrite !elem_of_cons in Hin.
        destruct Hin as [|[|Hin]]; try discriminate. by apply elem_of_nil in Hin. }
      apply Hc in Hin. split.
      { intros Hnil. apply Hin. apply (f_equal length) in Hnil.
        rewrite (sched_length _ Hsched) in Hnil. by destruct (scheduled ds). }
      exists upd, r, ds. repeat split; try done.
      * by apply scheduled_specialists with ds, (sched_elem_of _ Hsched).
      * apply (proj1 (sched_elem_of _ Hsched _ _)) in H.
        by apply list_elem_of_filter in H as [? _].
      * intros [? ?]. apply (sched_elem_of _ Hsched). by apply list_elem_of_filter.
    + intros st Hst. f_equal.
      destruct (scheduled ds) as [|x l] eqn:Hsc.
      { by rewrite (sched_nil _ Hsched). }
      rewrite (Hfull st) by done.
      destruct (sched (x :: l)) eqn:Hs; [|done].
      apply (f_equal length) in Hs. by rewrite (sched_length _ Hsched) in Hs.
    + intros st Hst Hne. apply join_step_Ok in Hst; [done|].
      intros Hnil. apply Hne. rewrite Hnil. by apply sched_nil.
  - exists []. split.
    { rewrite app_nil_r. apply prefix_cons.
      destruct (result (nr st0)); [apply prefix_cons|]; apply prefix_nil. }
    split; [apply NoDup_nil_2|]. split; [by intros s ?%elem_of_nil|].
    split; [|split; discriminate].
    rewrite app_nil_r. intros Hin. exfalso.
    destruct (result (nr st0)); rewrite !elem_of_cons in Hin;
      [destruct Hin as [|[|Hin]]|destruct Hin as [|Hin]];
      try discriminate; by apply elem_of_nil in Hin.
Qed.

End wiring_log.

(** A mark that occurs once in a list splits it in one way. *)
Lemma split_at_unique {A} (x : A) (P r2 t1 r1 : list A) :
  x ∉ P → x ∉ r2 → t1 ++ x :: r1 = P ++ x :: r2 → t1 = P ∧ r1 = r2.
Proof.
  revert t1. induction P as [|p P IH]; intros t1 HP Hr2 Heq.
  - destruct t1 as [|y t1]; [by injection Heq as ->|].
    injection Heq as -> <-. exfalso. apply Hr2.
    apply elem_of_app. right. left.
  - apply not_elem_of_cons in HP as [Hxp HP].
    destruct t1 as [|y t1]; [by injection Heq as ? _|].
    injection Heq as -> Heq. destruct (IH _ HP Hr2 Heq) as [-> ->]. done.
Qed.

(** In a log that is a prefix of router, specialists, [combina]: where
    [combina] is entered, the router and all the specialists were entered
    and left before, and after it [combina] is left at most. *)
Lemma combina_once (specs : list string) (l : list mark) :
  (∀ s, s ∈ specs → s ∈ specialists) →
  l `prefix_of` bracket "router" ++ brackets specs ++ bracket "combina" →
  ∀ t1 t2, l = t1 ++ Entered "combina" :: t2 →
    t1 = bracket "router" ++ brackets specs ∧ t2 `prefix_of` [Left "combina"].
Proof.
  intros Hspecs [k Hk] t1 t2 ->.
  rewrite <-(app_assoc t1), <-app_comm_cons in Hk.
  rewrite (app_assoc (bracket "router")) in Hk.
  change (bracket "combina") with (Entered "combina" :: [Left "combina"]) in Hk.
  symmetry in Hk. apply split_at_unique in Hk as [-> Hk].
  - split; [done|]. by exists k.
  - rewrite not_elem_of_app. split.
    + unfold bracket. rewrite !not_elem_of_cons.
      repeat split; try discriminate. apply not_elem_of_nil.
    + unfold brackets. intros (s & Hin & Hs%Hspecs)%list_elem_of_bind.
      unfold bracket in Hin. rewrite !elem_of_cons in Hin.
      destruct Hin as [[= <-]|[|Hin]]; [|discriminate|by apply elem_of_nil in Hin].
      unfold specialists in Hs. rewrite !elem_of_cons in Hs.
      destruct Hs as [|[|[|Hs]]]; try discriminate. by apply elem_of_nil in Hs.
  - rewrite not_elem_of_cons. split; [discriminate|apply not_elem_of_nil].
Qed.

(** ** What the schema lets through *)

Lemma writes_of_Every g (m : pydict) : writes_of Every g m = m.
Proof. unfold writes_of. apply map_filter_id. intros. by left. Qed.

Lemma writes_of_Declared_lookup g (m : pydict) k :
  k ∉ channels g → writes_of Declared g m !! k = None.
Proof.
  intros Hk. unfold writes_of. apply map_lookup_filter_None. right.
  intros v _ [Hm|Hin]; [discriminate|]. by apply Hk.
Qed.

Lemma writes_of_channel mode g (m : pydict) k :
  k ∈ channels g → writes_of mode g m !! k = m !! k.
Proof.
  intros Hk. unfold writes_of. rewrite map_lookup_filter.
  destruct (m !! k) as [v|]; [|reflexivity]. cbn.
  rewrite option_guard_True; [reflexivity|]. by right.
Qed.

Lemma routes_not_channel nr np nq nh nc :
  "routes" ∉ channels (wiring nr np nq nh nc).
Proof.
  rewrite wiring_channels. rewrite !not_elem_of_cons.
  repeat split; try discriminate. apply not_elem_of_nil.
Qed.

Lemma answer_channel nr np nq nh nc : "answer" ∈ channels (wiring nr np nq nh nc).
Proof. rewrite wiring_channels. rewrite !elem_of_cons. auto. Qed.

Lemma combina_Ok_inv W G st upd :
  result (combina W G st) = Ok upd → ∃ a, upd = {["answer" := PStr a]}.
Proof.
  unfold combina. intros H.
  repeat (rewrite result_bind in H;
          match type of H with
          | match ?o with _ => _ end = _ => destruct o; [|discriminate]
          end).
  injection H as <-. eauto.
Qed.

Lemma str_items_strings W (answers : list string) :
  str_items W (PList (PStr <$> answers)) = mret answers.
Proof.
  unfold str_items. rewrite lift_bind.
  induction answers as [|a answers IH]; [reflexivity|].
  cbn [fmap list_fmap foldr]. cbn [fmap list_fmap] in IH. rewrite IH.
  by rewrite ret_bind.
Qed.

Lemma combina_eq W st q (answers : list string) :
  st !! "respostas" = Some (PList (PStr <$> answers)) →
  st !! "question" = Some q →
  combina W notebook_globals st
  = say (EvLLM (combina_prompt W q answers))
      (mret {["answer" := PStr (generate W (combina_prompt W q answers))]}).
Proof.
  intros Hr Hq. unfold combina, getitem, lookup_name, template_of.
  rewrite Hr. mnorm. rewrite str_items_strings. mnorm.
  rewrite globals_prompt_combina, Hq. mnorm.
  rewrite format_combina. mnorm. rewrite llm_invoke_eq. by mnorm.
Qed.


Section same_replies.
Context (W1 W2 : World) (H12 : same_replies W1 W2) (G : namespace).

Lemma text_ext v : text W1 v = text W2 v.
Proof. destruct H12 as (_ & _ & _ & Hs & _). destruct v; cbn; auto. Qed.

Lemma llm_invoke_ext p : llm_invoke W1 G p = llm_invoke W2 G p.
Proof.
  destruct H12 as (Hg & _). unfold llm_invoke.
  apply bind_ext. intros l. destruct l; try reflexivity.
  apply bind_ext. intros _. by rewrite Hg.
Qed.

Lemma router_ext st : router W1 G st = router W2 G st.
Proof.
  unfold router. do 3 (apply bind_ext; intros ?).
  rewrite text_ext. apply bind_ext. intros prompt.
  rewrite llm_invoke_ext. apply bind_ext. intros content.
  unfold loads_or_fallback. destruct H12 as (_ & _ & Hj & _). by rewrite Hj.
Qed.

Lemma agente_ext st : agente W1 G st = agente W2 G st.
Proof.
  unfold agente. do 2 (apply bind_ext; intros ?).
  apply bind_ext. intros [c k]. apply bind_ext. intros q.
  destruct H12 as (_ & Hs & _). rewrite Hs.
  apply bind_ext. intros _. do 3 (apply bind_ext; intros ?).
  rewrite text_ext. apply bind_ext. intros prompt.
  rewrite llm_invoke_ext. reflexivity.
Qed.

Lemma combina_ext st : combina W1 G st = combina W2 G st.
Proof.
  unfold combina. apply bind_ext. intros r.
  unfold str_items. destruct H12 as (_ & _ & _ & _ & Hi).
  assert ((match r with PList l => Ok l | _ => py_iter W1 r end)
          = (match r with PList l => Ok l | _ => py_iter W2 r end)) as ->
    by (destruct r; auto).
  apply bind_ext. intros items. do 3 (apply bind_ext; intros ?).
  rewrite text_ext. apply bind_ext. intros prompt.
  rewrite llm_invoke_ext. reflexivity.
Qed.

End same_replies.

(** The writes depend on the schema, not on the node functions. *)
Lemma writes_of_wiring mode nr np nq nh nc (upd : pydict) :
  writes_of mode (wiring nr np nq nh nc) upd = writes_of mode (new_graph GraphState) upd.
Proof. reflexivity. Qed.

Section one_specialist.
Context (mode : schema_mode) (nr na nc : node).

Local Abbreviation writes := (writes_of mode (new_graph GraphState)).

Lemma specialist_same s : specialist na na na s = na.
Proof. unfold specialist. by repeat case_bool_decide. Qed.

Lemma result_specialist_tasks_same st s l :
  result (for_each (specialist_task mode nr na na na nc st) (s :: l))
  = match result (na st) with
    | Ok upd => Ok (replicate (S (length l)) (writes upd, ["combina"]))
    | Raise e => Raise e
    end.
Proof.
  revert s. induction l as [|s' l IH]; intros s.
  - rewrite for_each_singleton, result_bind, result_specialist_task, specialist_same.
    by destruct (result (na st)).
  - rewrite for_each_cons, result_bind, result_specialist_task, specialist_same.
    destruct (result (na st)) as [upd|e] eqn:Hna; [|reflexivity].
    rewrite result_bind, IH. reflexivity.
Qed.

Lemma result_join_step_same sched st1 tasks :
  (∀ l, sched l ≡ₚ l) →
  result (join_step mode sched nr na na na nc st1 tasks)
  = join_result mode na nc st1 (length tasks).
Proof.
  intros Hsched. destruct tasks as [|x l]; [reflexivity|].
  unfold join_step. rewrite result_bind.
  destruct (sched (x :: l)) as [|y l'] eqn:Hs.
  { apply (f_equal length) in Hs. by rewrite (sched_length _ Hsched) in Hs. }
  rewrite result_specialist_tasks_same.
  assert (length l' = length l) as ->.
  { pose proof (sched_length _ Hsched (x :: l)) as Hlen. rewrite Hs in Hlen.
    by injection Hlen. }
  cbn [join_result length]. destruct (result (na st1)) as [upd|e]; [|reflexivity].
  rewrite result_bind, fmap_replicate. cbn [fst].
  destruct (merge _) as [merged|e]; [|reflexivity].
  cbn [lift result snd]. rewrite result_bind.
  unfold combina_task. rewrite result_say, result_bind.
  by destruct (result (nc (merged ∪ st1))).
Qed.

Lemma result_run_from_same sched st0 :
  (∀ l, sched l ≡ₚ l) →
  result (run_from mode sched nr na na na nc st0) = run_result mode nr na nc st0.
Proof.
  intros Hsched. unfold run_from, run_result. rewrite result_bind.
  unfold router_task at 1. rewrite result_say, result_bind.
  destruct (result (nr st0)) as [upd|e]; [|reflexivity].
  rewrite result_say, result_bind. rewrite writes_of_wiring.
  unfold getitem at 1.
  destruct ((writes upd ∪ st0) !! "routes") as [r|]; [|reflexivity].
  cbn [result mret M_ret snd]. rewrite result_bind.
  destruct (result (destinations route_map r)) as [ds|e]; [|reflexivity].
  cbn [result mret M_ret fst snd]. by apply result_join_step_same.
Qed.

End one_specialist.

(** The outcome depends on the node functions through their outcomes. *)
Lemma run_result_ext mode nr na nc nr' na' nc' st0 :
  (∀ st, nr st = nr' st) → (∀ st, na st = na' st) → (∀ st, nc st = nc' st) →
  run_result mode nr na nc st0 = run_result mode nr' na' nc' st0.
Proof.
  intros Hr Ha Hc. unfold run_result, join_result. rewrite Hr.
  destruct (result (nr' st0)) as [upd|e]; [|reflexivity].
  destruct (_ !! "routes") as [r|]; [|reflexivity].
  destruct (result (destinations route_map r)) as [ds|e]; [|reflexivity].
  destruct (length (scheduled ds)); [reflexivity|]. rewrite Ha.
  destruct (result (na' _)) as [upd2|e]; [|reflexivity].
  destruct (merge _) as [merged|e]; [|reflexivity]. by rewrite Hc.
Qed.

(** * The claims *)

(** ** C1 *)

(** C1, at the [produtos] specialist. The name [prompt_agente_produtos] is
    assigned three times and is left bound to the template of Recursos
    Humanos; the other two templates are bound to no name. As the cells
    stand the specialist raises before it renders anything; with
    [get_retriever] bound to the method of [produto_manager], it sends the
    model the rendering of the Recursos Humanos template, which is not the
    rendering of the [produtos] template. *)
Theorem produtos_specialist_renders_rh_template :
  notebook_globals !! "prompt_agente_produtos"
  = Some (OPromptTemplate ["question"; "context"] template_rh)
  ∧ notebook_globals !! "prompt_agente_processos" = None
  ∧ notebook_globals !! "prompt_agente_rh" = None
  ∧ trace (agente_produtos (stub_world "resposta" ["p1"; "p2"]) notebook_globals
             estado_inicial) = []
  ∧ trace (agente_produtos (stub_world "resposta" ["p1"; "p2"])
             (with_get_retriever produto_manager) estado_inicial)
    = [ EvSearch "produtos" 3 (PStr pergunta);
        EvLLM (rendered template_rh
                 [("question", pergunta); ("context", "p1" +:+ nl +:+ nl +:+ "p2")]) ]
  ∧ rendered template_rh
      [("question", pergunta); ("context", "p1" +:+ nl +:+ nl +:+ "p2")]
    ≠ rendered template_produtos
        [("question", pergunta); ("context", "p1" +:+ nl +:+ nl +:+ "p2")].
Proof.
  split; [apply globals_prompt_agente_produtos|].
  split; [vm_compute; reflexivity|]. split; [vm_compute; reflexivity|].
  split; [vm_compute; reflexivity|]. split; [vm_compute; reflexivity|].
  apply rendered_agente_differ.
Qed.

(** ** C2 *)

(** C2, at responses that are JSON but not an object with a list under
    [dominios]. The [except] clause names [JSONDecodeError] alone, so: on
    the object [{}] the router raises [KeyError]; on the array [[]] it
    raises [TypeError]; on an object that holds a string under [dominios]
    it returns that string as the routes. In none of the three cases is the
    route list empty. *)
Theorem router_unexpected_structure :
  result (router (stub_world "{}" []) notebook_globals estado_inicial)
  = Raise (KeyError (PStr "dominios"))
  ∧ result (router (stub_world "[]" []) notebook_globals estado_inicial)
    = Raise (TypeError "list indices must be integers or slices, not str")
  ∧ result (router (stub_world ("{" +:+ dq +:+ "dominios" +:+ dq +:+ ": "
                                +:+ dq +:+ "rh" +:+ dq +:+ "}") [])
              notebook_globals estado_inicial)
    = Ok {["routes" := PStr "rh"]}.
Proof. vm_compute. auto. Qed.

(** ** C3 *)

(** C3 as stated fails: the model names a domain that does not exist, and
    the router returns it among the routes. *)
Lemma router_keeps_unknown_identifier :
  result (router (stub_world (dominios_json ["rh"; "financeiro"]) [])
            notebook_globals estado_inicial)
  = Ok {["routes" := PList [PStr "rh"; PStr "financeiro"]]}
  ∧ ¬ routes_within (PList [PStr "rh"; PStr "financeiro"]).
Proof.
  split; [vm_compute; reflexivity|].
  intros (l & [= <-] & Hl).
  destruct (Hl (PStr "financeiro")) as (d & [= <-] & Hd).
  { apply elem_of_cons. right. apply list_elem_of_singleton. reflexivity. }
  unfold domains in Hd. apply elem_of_dom in Hd as [v Hv].
  vm_compute in Hv. discriminate.
Qed.

(** C3, amended. The router does not filter: when the response parses to an
    object, the value under [dominios] is returned as the routes unchanged,
    so the routes stay within the domains exactly when the parsed value
    does. *)
Theorem router_returns_parsed_list (W : World) (st d : pydict) (q r : pyval) :
  st !! "question" = Some q →
  json_loads W (generate W (router_prompt W q)) = Some (PDict d) →
  d !! "dominios" = Some r →
  result (router W notebook_globals st) = Ok {["routes" := r]}
  ∧ (∀ upd r', result (router W notebook_globals st) = Ok upd →
       upd !! "routes" = Some r' → (routes_within r' ↔ routes_within r)).
Proof.
  intros Hq Hj Hr. rewrite (router_parsed _ _ _ _ _ Hq Hj Hr).
  split; [reflexivity|].
  intros upd r' [= <-]. rewrite lookup_singleton_eq. by intros [= <-].
Qed.

Lemma router_returns_parsed_list_witness :
  result (router (stub_world (dominios_json ["rh"; "financeiro"]) [])
            notebook_globals estado_inicial)
  = Ok {["routes" := PList [PStr "rh"; PStr "financeiro"]]}.
Proof.
  apply (router_returns_parsed_list
           (stub_world (dominios_json ["rh"; "financeiro"]) []) estado_inicial
           {["dominios" := PList [PStr "rh"; PStr "financeiro"]]} (PStr pergunta)
           (PList [PStr "rh"; PStr "financeiro"]));
    vm_compute; reflexivity.
Defined.

(** ** C4 *)


(** ** C5 *)




(** ** C6 *)




Example run_reaching_combina :
  marks (trace (invoke Every id
                  (graph (stub_world (dominios_json ["rh"]) ["p1"])
                     (with_get_retriever rh_manager)) estado_inicial))
  = bracket "router" ++ brackets ["rh"] ++ bracket "combina".
Proof. vm_compute. reflexivity. Qed.

(** ** C7 *)

(** C7, at the [rh] specialist on the state of the last cell. As the cells
    stand it raises [NameError] with nothing retrieved, nothing sent to the
    model and nothing appended. The call [get_retriever()] names no domain:
    with the name bound to the method of [produto_manager], the [rh]
    specialist searches the collection [produtos]. *)
Theorem rh_specialist_retrieves_nothing :
  agente_rh (stub_world "resposta" ["p1"; "p2"; "p3"; "p4"]) notebook_globals
    estado_inicial
  = ([], Raise (NameError "get_retriever"))
  ∧ trace (agente_rh (stub_world "resposta" ["p1"; "p2"; "p3"; "p4"])
             (with_get_retriever produto_manager) estado_inicial)
    = [ EvSearch "produtos" 3 (PStr pergunta);
        EvLLM (rendered template_rh
                 [("question", pergunta);
                  ("context", join (nl +:+ nl) ["p1"; "p2"; "p3"])]) ].
Proof. split; vm_compute; reflexivity. Qed.

(** ** C8 *)



(** ** C9 *)

(** C9. The name [get_retriever] is bound nowhere in the module namespace
    (it is only a method of [VectorStoreManager]), and each of the three
    specialist functions, on every state and with every model and store,
    raises [NameError] at that name, before anything is retrieved or sent
    to the model. *)
Theorem specialists_raise_NameError (W : World) (st : pydict) :
  notebook_globals !! "get_retriever" = None
  ∧ agente_produtos W notebook_globals st = ([], Raise (NameError "get_retriever"))
  ∧ agente_processos W notebook_globals st = ([], Raise (NameError "get_retriever"))
  ∧ agente_rh W notebook_globals st = ([], Raise (NameError "get_retriever")).
Proof.
  split; [apply globals_get_retriever|].
  unfold agente_produtos, agente_processos, agente_rh.
  rewrite agente_NameError. auto.
Qed.

(** ** C10 *)

(** C10. [GraphState] declares the fields [question], [respostas] and
    [answer]. An update the router returns has the single key [routes],
    which is none of them: no declared field is written, under the
    declared schema nothing of the update reaches the state, and the
    selector of the conditional edge, which reads [routes], finds no such
    key in a state made of declared fields. *)
Theorem router_update_misses_GraphState (W : World) (G : namespace) (st upd : pydict) :
  result (router W G st) = Ok upd →
  GraphState.*1 = ["question"; "respostas"; "answer"]
  ∧ dom upd = ({["routes"]} : gset string)
  ∧ ("routes" ∉ GraphState.*1)
  ∧ (∀ f, f ∈ (GraphState.*1) → upd !! f = None)
  ∧ writes_of Declared (graph W G) upd = ∅
  ∧ ∀ b st', b ∈ snd <$> branches (graph W G) →
      dom st' ⊆ (list_to_set GraphState.*1 : gset string) →
      path b (writes_of Declared (graph W G) upd ∪ st') = raise (KeyError (PStr "routes")).
Proof.
  intros [r ->]%router_Ok_inv.
  assert (Hnot : "routes" ∉ GraphState.*1).
  { cbn. rewrite !not_elem_of_cons. repeat split; try discriminate. apply not_elem_of_nil. }
  assert (Hw : writes_of Declared (graph W G) ({["routes" := r]} : pydict) = ∅).
  { unfold writes_of. apply map_filter_singleton_False.
    intros [Hm|Hk]; [discriminate|]. by apply Hnot. }
  split; [reflexivity|]. split; [apply dom_singleton_L|].
  split; [done|]. split; [|split; [done|]].
  - intros f Hf. apply lookup_singleton_None. intros <-. by apply Hnot.
  - intros b st' Hb Hdom. rewrite Hw, (left_id_L ∅ (∪)).
    cbn in Hb. apply list_elem_of_singleton in Hb as ->. cbn [path].
    unfold getitem.
    assert (st' !! "routes" = None) as ->; [|reflexivity].
    apply not_elem_of_dom. intros Hin%Hdom.
    apply elem_of_list_to_set in Hin. by apply Hnot.
Qed.

(** The theorem at the state of the last cell, with a model that names the
    domain [rh]. *)
Lemma router_update_misses_GraphState_witness :
  dom ({["routes" := PList [PStr "rh"]]} : pydict) = ({["routes"]} : gset string)
  ∧ writes_of Declared (graph (stub_world (dominios_json ["rh"]) []) notebook_globals)
      ({["routes" := PList [PStr "rh"]]} : pydict) = ∅.
Proof.
  pose proof (router_update_misses_GraphState (stub_world (dominios_json ["rh"]) [])
                notebook_globals estado_inicial {["routes" := PList [PStr "rh"]]}) as H.
  destruct H as (_ & Hdom & _ & _ & Hw & _); [vm_compute; reflexivity|].
  exact (conj Hdom Hw).
Defined.

(** * Further properties of the code *)

(** ** The prompts *)

Lemma append_assoc (a b c : string) : (a +:+ b) +:+ c = a +:+ (b +:+ c).
Proof.
  induction a as [|x a IH]; [reflexivity|].
  change (String x ((a +:+ b) +:+ c) = String x (a +:+ (b +:+ c))). by rewrite IH.
Qed.

Lemma format_template_rh_text (q c : string) :
  format template_rh [("question", q); ("context", c)]
  = Ok (agente_before "Recursos Humanos" +:+ c +:+ agente_mid +:+ q +:+ agente_after).
Proof. vm_compute. reflexivity. Qed.

(** The router's prompt, for every question text: rendering does not fail,
    the JSON example reaches the model with single braces, and the question
    is inserted as it is, braces included, followed by a newline. *)
Theorem router_prompt_verbatim (q : string) :
  format template_orquestrador [("question", q)]
  = Ok (orquestrador_before +:+ q +:+ nl).
Proof. vm_compute. reflexivity. Qed.

(** The specialists' prompts, for every question and context: rendering
    does not fail; the context comes first and the question second, each as
    it is; the instruction for an answer that the context does not hold
    follows the question, also when the context is empty. *)
Theorem agente_prompt_verbatim (q c : string) :
  format template_produtos [("question", q); ("context", c)]
  = Ok (agente_before "produtos" +:+ c +:+ agente_mid +:+ q +:+ agente_after)
  ∧ format template_processos [("question", q); ("context", c)]
    = Ok (agente_before "processos" +:+ c +:+ agente_mid +:+ q +:+ agente_after)
  ∧ format template_rh [("question", q); ("context", c)]
    = Ok (agente_before "Recursos Humanos" +:+ c +:+ agente_mid +:+ q +:+ agente_after).
Proof. repeat split; vm_compute; reflexivity. Qed.

(** The specialists' prompt does not delimit its fields: a context that
    holds the text between the fields renders as the shorter context with a
    longer question. What is retrieved can pass for the question. *)
Theorem agente_prompt_ambiguous (a b c : string) :
  format template_rh [("question", c); ("context", a +:+ agente_mid +:+ b)]
  = format template_rh [("question", b +:+ agente_mid +:+ c); ("context", a)].
Proof.
  rewrite !format_template_rh_text. by rewrite !append_assoc.
Qed.

(** ** The router *)

Lemma trace_subscript v k : trace (subscript v k) = [].
Proof. destruct v; try reflexivity. cbn. unfold getitem. by destruct (_ !! _). Qed.





(** A response that is not JSON leaves no mark of its own: the router
    prints and returns the same as for a model that answered with an empty
    list of domains. *)
Theorem router_fallback_indistinguishable (W1 W2 : World) (st : pydict) (s : string) :
  st !! "question" = Some (PStr s) →
  json_loads W1 (generate W1 (router_prompt W1 (PStr s))) = None →
  json_loads W2 (generate W2 (router_prompt W2 (PStr s)))
  = Some (PDict {["dominios" := PList []]}) →
  router W1 notebook_globals st = router W2 notebook_globals st.
Proof.
  intros Hq H1 H2. rewrite (router_decode_error _ _ _ Hq H1).
  rewrite (router_parsed W2 _ _ _ (PList []) Hq H2) by apply lookup_singleton_eq.
  reflexivity.
Qed.

Lemma router_fallback_indistinguishable_witness :
  router (stub_world "nao sei" []) notebook_globals estado_inicial
  = router (stub_world (dominios_json []) []) notebook_globals estado_inicial.
Proof.
  apply (router_fallback_indistinguishable (stub_world "nao sei" [])
           (stub_world (dominios_json []) []) estado_inicial pergunta);
    vm_compute; reflexivity.
Defined.

(** ** What the nodes read *)

(** The node functions read the keys [question] and [respostas] of the
    state and no other: on two states that agree on these two keys each
    node does the same, whatever the namespace. The [answer] given to a run
    is read by no node. *)
Theorem nodes_read_question_and_respostas (W : World) (G : namespace) (st1 st2 : pydict) :
  st1 !! "question" = st2 !! "question" →
  st1 !! "respostas" = st2 !! "respostas" →
  router W G st1 = router W G st2
  ∧ agente W G st1 = agente W G st2
  ∧ combina W G st1 = combina W G st2.
Proof.
  intros Hq Hr. unfold router, agente, combina, getitem, dict_get.
  by rewrite Hq, Hr.
Qed.

Lemma nodes_read_question_and_respostas_witness :
  combina (stub_world "resposta" []) notebook_globals estado_inicial
  = combina (stub_world "resposta" []) notebook_globals
      (<["answer" := PStr "antiga"]> estado_inicial).
Proof.
  apply (nodes_read_question_and_respostas (stub_world "resposta" []) notebook_globals
           estado_inicial (<["answer" := PStr "antiga"]> estado_inicial));
    vm_compute; reflexivity.
Defined.

(** ** The combiner *)

Lemma format_combina_text (q r : string) :
  format template_combina [("question", q); ("respostas", r)]
  = Ok (combina_before +:+ q +:+ combina_mid +:+ r +:+ combina_after).
Proof. vm_compute. reflexivity. Qed.

Lemma trace_str_items W v : trace (str_items W v) = [].
Proof.
  unfold str_items. rewrite trace_bind. cbn [lift trace fst result snd app].
  destruct (match v with PList l => Ok l | _ => py_iter W v end) as [items|e];
    [|reflexivity].
  induction items as [|x items IH]; [reflexivity|].
  cbn [foldr]. destruct x; try reflexivity.
  rewrite trace_bind, IH. by destruct (result _).
Qed.

(** An entry that is not a string makes the join fail. *)
Lemma str_items_not_str W (l : list pyval) (x : pyval) :
  x ∈ l → (∀ s, x ≠ PStr s) →
  result (str_items W (PList l)) = Raise (TypeError "sequence item: expected str instance").
Proof.
  intros Hx Hns. unfold str_items. rewrite lift_bind.
  induction l as [|y l IH]; [by apply elem_of_nil in Hx|].
  cbn [foldr]. apply elem_of_cons in Hx as [<-|Hx].
  - destruct x; try reflexivity. by destruct (Hns s).
  - destruct y; try reflexivity. rewrite result_bind, (IH Hx). reflexivity.
Qed.

(** With a list of strings under [respostas] and a question, [combina]
    sends the model one prompt: the question as it is, then the answers in
    the order in which they were accumulated, a blank line between them;
    what it returns is the key [answer] alone, holding the model's
    response. *)
Theorem combina_sends_joined_answers (W : World) (st : pydict) (q : pyval)
    (answers : list string) :
  st !! "respostas" = Some (PList (PStr <$> answers)) →
  st !! "question" = Some q →
  let prompt := combina_before +:+ text W q +:+ combina_mid
                +:+ join (nl +:+ nl) answers +:+ combina_after in
  combina W notebook_globals st
  = ([EvLLM prompt], Ok {["answer" := PStr (generate W prompt)]}).
Proof.
  intros Hr Hq. cbn zeta. rewrite (combina_eq W st q answers Hr Hq).
  unfold combina_prompt, rendered. by rewrite format_combina_text.
Qed.

Lemma combina_sends_joined_answers_witness :
  result (combina (stub_world "final" []) notebook_globals
            (<["respostas" := PList [PStr "a"; PStr "b"]]> estado_inicial))
  = Ok {["answer" := PStr "final"]}.
Proof.
  pose proof (combina_sends_joined_answers (stub_world "final" [])
                (<["respostas" := PList [PStr "a"; PStr "b"]]> estado_inicial)
                (PStr pergunta) ["a"; "b"]) as H.
  cbn zeta in H. rewrite H; [reflexivity| |]; vm_compute; reflexivity.
Defined.

(** Without the key [respostas] in the state, [combina] raises [KeyError]
    at that key before anything else, whatever the namespace and whether or
    not there is a question: nothing is sent to the model. *)
Theorem combina_without_respostas (W : World) (G : namespace) (st : pydict) :
  st !! "respostas" = None →
  combina W G st = ([], Raise (KeyError (PStr "respostas"))).
Proof. intros Hr. unfold combina, getitem. by rewrite Hr. Qed.

Lemma combina_without_respostas_witness :
  combina (stub_world "final" []) notebook_globals ∅
  = ([], Raise (KeyError (PStr "respostas"))).
Proof. apply combina_without_respostas. reflexivity. Defined.

(** An entry of [respostas] that is not a string makes [combina] raise
    [TypeError] with nothing sent to the model, whatever the namespace. *)
Theorem combina_rejects_non_string (W : World) (G : namespace) (st : pydict)
    (l : list pyval) (x : pyval) :
  st !! "respostas" = Some (PList l) →
  x ∈ l → (∀ s, x ≠ PStr s) →
  combina W G st = ([], Raise (TypeError "sequence item: expected str instance")).
Proof.
  intros Hr Hx Hns. unfold combina, getitem. rewrite Hr, ret_bind.
  pose proof (trace_str_items W (PList l)) as Ht.
  pose proof (str_items_not_str W l x Hx Hns) as He.
  destruct (str_items W (PList l)) as [t o]. cbn in Ht, He. by subst.
Qed.

Lemma combina_rejects_non_string_witness :
  combina (stub_world "final" []) notebook_globals
    (<["respostas" := PList [PStr "a"; PNone]]> estado_inicial)
  = ([], Raise (TypeError "sequence item: expected str instance")).
Proof.
  apply (combina_rejects_non_string _ _ _ [PStr "a"; PNone] PNone).
  - vm_compute. reflexivity.
  - apply elem_of_cons. right. apply list_elem_of_singleton. reflexivity.
  - intros s. discriminate.
Defined.

(** Whatever the namespace binds, when [combina] returns it has sent the
    model exactly one prompt and done nothing else, and its update is the
    key [answer] alone, holding the model's response to that prompt. *)
Theorem combina_answer_is_model_response (W : World) (G : namespace) (st upd : pydict) :
  result (combina W G st) = Ok upd →
  ∃ prompt, trace (combina W G st) = [EvLLM prompt]
            ∧ upd = {["answer" := PStr (generate W prompt)]}.
Proof.
  unfold combina, getitem, lookup_name, template_of, llm_invoke, lookup_name.
  destruct (st !! "respostas") as [r|]; [|discriminate]. rewrite ret_bind.
  pose proof (trace_str_items W r) as Ht.
  destruct (str_items W r) as [t [items|e]]; [|discriminate]. cbn in Ht. subst t.
  change (@pair (list event) (outcome (list string)) [] (Ok items)) with (mret items : M _).
  rewrite ret_bind.
  destruct (G !! "prompt_combina") as [p|]; [|discriminate]. rewrite ret_bind.
  destruct p; try discriminate. rewrite ret_bind.
  destruct (st !! "question") as [q|]; [|discriminate]. rewrite ret_bind, lift_bind.
  destruct (format _ _) as [prompt|e]; [|discriminate].
  destruct (G !! "llm") as [l|]; [|discriminate]. rewrite ret_bind.
  destruct l; try discriminate.
  destruct (G !! "HumanMessage") as [h|]; [|discriminate].
  cbv [mret mbind M_ret M_bind emit result trace fst snd app].
  intros <-%Ok_inj. by exists prompt.
Qed.

Lemma combina_answer_is_model_response_witness :
  ∃ prompt,
    trace (combina (stub_world "final" []) notebook_globals estado_inicial) = [EvLLM prompt]
    ∧ ({["answer" := PStr "final"]} : pydict)
      = {["answer" := PStr (generate (stub_world "final" []) prompt)]}.
Proof.
  apply (combina_answer_is_model_response (stub_world "final" []) notebook_globals
           estado_inicial {["answer" := PStr "final"]}).
  vm_compute. reflexivity.
Defined.

Lemma join_blank_line (a b : string) (l : list string) :
  join (nl +:+ nl) ((a +:+ (nl +:+ nl) +:+ b) :: l) = join (nl +:+ nl) (a :: b :: l).
Proof.
  destruct l as [|c l]; [reflexivity|].
  cbn [join]. by rewrite !append_assoc.
Qed.

(** [combina] sees its answers through their join alone: one answer that
    holds a blank line gives the same prompt, and so the same result, as
    two answers. The number of entries of [respostas] is lost. *)
Theorem combina_merges_entries (W : World) (st1 st2 : pydict) (a b : string)
    (l : list string) :
  st1 !! "question" = st2 !! "question" →
  st1 !! "respostas" = Some (PList (PStr <$> (a +:+ (nl +:+ nl) +:+ b) :: l)) →
  st2 !! "respostas" = Some (PList (PStr <$> a :: b :: l)) →
  combina W notebook_globals st1 = combina W notebook_globals st2.
Proof.
  intros Hq H1 H2. destruct (st2 !! "question") as [q|] eqn:Hq2.
  - rewrite (combina_eq W st1 q _ H1 Hq), (combina_eq W st2 q _ H2 Hq2).
    unfold combina_prompt. by rewrite join_blank_line.
  - unfold combina, getitem, lookup_name, template_of.
    rewrite H1, H2, Hq, Hq2. mnorm. rewrite !str_items_strings. mnorm.
    rewrite globals_prompt_combina. by mnorm.
Qed.

Lemma combina_merges_entries_witness :
  combina (stub_world "final" []) notebook_globals
    (<["respostas" := PList [PStr ("a" +:+ (nl +:+ nl) +:+ "b")]]> estado_inicial)
  = combina (stub_world "final" []) notebook_globals
      (<["respostas" := PList [PStr "a"; PStr "b"]]> estado_inicial).
Proof.
  apply (combina_merges_entries (stub_world "final" []) _ _ "a" "b" []);
    vm_compute; reflexivity.
Defined.

(** ** The specialists *)

(** Whatever the namespace binds, when a specialist returns it has done one
    search with the question and then sent the model one prompt, and its
    update is the key [respostas] alone: the list it was given (the empty
    list when the key is absent), every entry kept in its place, with the
    model's response appended at the end. *)
Theorem agente_appends_one (W : World) (G : namespace) (st upd : pydict) :
  result (agente W G st) = Ok upd →
  ∃ c k q prompt l,
    trace (agente W G st) = [EvSearch c k q; EvLLM prompt]
    ∧ st !! "question" = Some q
    ∧ dict_get st "respostas" (PList []) = PList l
    ∧ upd = {["respostas" := PList (l ++ [PStr (generate W prompt)])]}.
Proof.
  unfold agente, getitem, lookup_name, template_of, llm_invoke, lookup_name,
    call0, get_retriever, retriever_of, list_add.
  cbv [mret mbind M_ret M_bind emit lift raise result trace fst snd app default
       from_option id].
  destruct (G !! "get_retriever") as [f|]; [|discriminate].
  destruct f as [| | | |self m| | | | | |]; try discriminate.
  destruct (bool_decide (m = "get_retriever")); [|discriminate].
  destruct (st !! "question") as [q|]; [|discriminate].
  destruct (G !! "prompt_agente_produtos") as [p|]; [|discriminate].
  destruct p; try discriminate.
  destruct (format _ _) as [prompt|e]; [|discriminate].
  destruct (G !! "llm") as [l|]; [|discriminate].
  destruct l; try discriminate.
  destruct (G !! "HumanMessage") as [h|]; [|discriminate].
  destruct (dict_get st "respostas" (PList [])) as [| | | |old|]; try discriminate.
  intros <-%Ok_inj. by exists (collection_name self), 3, q, prompt, old.
Qed.

Lemma agente_appends_one_witness :
  ∃ c k q prompt l,
    trace (agente (stub_world "resposta" ["p1"]) (with_get_retriever rh_manager)
             (<["respostas" := PList [PStr "antes"]]> estado_inicial))
    = [EvSearch c k q; EvLLM prompt]
    ∧ (<["respostas" := PList [PStr "antes"]]> estado_inicial : pydict) !! "question"
      = Some q
    ∧ dict_get (<["respostas" := PList [PStr "antes"]]> estado_inicial) "respostas"
        (PList []) = PList l
    ∧ ({["respostas" := PList [PStr "antes"; PStr "resposta"]]} : pydict)
      = {["respostas" := PList (l ++ [PStr (generate (stub_world "resposta" ["p1"]) prompt)])]}.
Proof.
  apply (agente_appends_one (stub_world "resposta" ["p1"]) (with_get_retriever rh_manager)
           (<["respostas" := PList [PStr "antes"]]> estado_inicial)
           {["respostas" := PList [PStr "antes"; PStr "resposta"]]}).
  vm_compute. reflexivity.
Defined.

(** ** The conditional edge *)

Lemma route_map_domain d : d ∈ domains → route_map !! d = Some d.
Proof.
  unfold domains. intros [v Hv]%elem_of_dom. rewrite Hv. f_equal.
  unfold route_map in Hv. rewrite !lookup_insert_Some, lookup_empty in Hv.
  destruct Hv as [[<- <-]|[_ [[<- <-]|[_ [[<- <-]|[_ [=]]]]]]]; reflexivity.
Qed.

Lemma destinations_domains (l : list string) :
  Forall (λ d, d ∈ domains) l →
  for_each (destination route_map) (PStr <$> l) = mret l.
Proof.
  induction 1 as [|d l Hd _ IH]; [reflexivity|].
  cbn [fmap list_fmap]. rewrite for_each_cons. cbn [destination].
  rewrite (route_map_domain d Hd), ret_bind. cbn [fmap list_fmap] in IH.
  rewrite IH. by rewrite !ret_bind.
Qed.

(** The conditional edge after the router, on a state whose [routes] is a
    list of domain names: it gives back the same list, in the same order
    and with its repetitions; the path map sends every domain to the node
    of the same name. *)
Theorem conditional_edge_known (nr np nq nh nc : node) (b : branch) (st : pydict)
    (l : list string) :
  b ∈ snd <$> branches (wiring nr np nq nh nc) →
  st !! "routes" = Some (PList (PStr <$> l)) →
  Forall (λ d, d ∈ domains) l →
  follow st b = ([], Ok l).
Proof.
  intros Hb Hr Hl. cbn in Hb. apply list_elem_of_singleton in Hb as ->.
  unfold follow. cbn [path path_map]. unfold getitem. rewrite Hr, ret_bind.
  unfold destinations. by rewrite destinations_domains.
Qed.

Lemma conditional_edge_known_witness :
  follow (<["routes" := PList [PStr "rh"; PStr "produtos"; PStr "rh"]]> estado_inicial)
    {| path := λ x, getitem x "routes"; path_map := route_map |}
  = ([], Ok ["rh"; "produtos"; "rh"]).
Proof.
  apply (conditional_edge_known (λ _, mret ∅) (λ _, mret ∅) (λ _, mret ∅) (λ _, mret ∅)
           (λ _, mret ∅)).
  - cbn. apply list_elem_of_singleton. reflexivity.
  - vm_compute. reflexivity.
  - repeat constructor; apply elem_of_dom; eexists; vm_compute; reflexivity.
Defined.

(** An identifier that is not a domain is not dropped by the conditional
    edge either: at the first one in the list the edge raises [KeyError]
    with that identifier, and no destination is given. *)
Theorem conditional_edge_unknown (nr np nq nh nc : node) (b : branch) (st : pydict)
    (l1 l2 : list string) (x : string) :
  b ∈ snd <$> branches (wiring nr np nq nh nc) →
  st !! "routes" = Some (PList (PStr <$> (l1 ++ x :: l2))) →
  Forall (λ d, d ∈ domains) l1 →
  x ∉ domains →
  follow st b = ([], Raise (KeyError (PStr x))).
Proof.
  intros Hb Hr Hl Hx. cbn in Hb. apply list_elem_of_singleton in Hb as ->.
  unfold follow. cbn [path path_map]. unfold getitem. rewrite Hr, ret_bind.
  unfold destinations. clear Hr.
  induction Hl as [|d l1 Hd _ IH].
  - cbn [app fmap list_fmap]. rewrite for_each_cons. cbn [destination].
    unfold domains in Hx. apply (proj1 (not_elem_of_dom _ _)) in Hx. by rewrite Hx.
  - cbn [app fmap list_fmap]. rewrite for_each_cons. cbn [destination].
    rewrite (route_map_domain d Hd), ret_bind.
    cbn [app fmap list_fmap] in IH. by rewrite IH.
Qed.

Lemma conditional_edge_unknown_witness :
  follow (<["routes" := PList [PStr "rh"; PStr "financeiro"; PStr "produtos"]]> estado_inicial)
    {| path := λ x, getitem x "routes"; path_map := route_map |}
  = ([], Raise (KeyError (PStr "financeiro"))).
Proof.
  apply (conditional_edge_unknown (λ _, mret ∅) (λ _, mret ∅) (λ _, mret ∅) (λ _, mret ∅)
           (λ _, mret ∅) _ _ ["rh"] ["produtos"] "financeiro").
  - cbn. apply list_elem_of_singleton. reflexivity.
  - vm_compute. reflexivity.
  - repeat constructor; apply elem_of_dom; eexists; vm_compute; reflexivity.
  - unfold domains. intros Hin. apply (proj1 (elem_of_dom _ _)) in Hin as [v Hv].
    vm_compute in Hv. discriminate.
Defined.

(** ** Whole runs *)

(** A run on an input without the key [question] raises [KeyError] at that
    key in the router: nothing is sent to the model, nothing is printed and
    no other node is entered, whatever else the input holds. *)
Theorem run_without_question (W : World) (mode : schema_mode)
    (sched : list string → list string) (input : pydict) :
  (∀ l, sched l ≡ₚ l) →
  input !! "question" = None →
  invoke mode sched (graph W notebook_globals) input
  = ([EvEnter "router"], Raise (KeyError (PStr "question"))).
Proof.
  intros Hsched Hq. unfold graph. rewrite invoke_eq by done.
  unfold run_from, router_task. rewrite router_no_question; [reflexivity|].
  apply map_lookup_filter_None. by left.
Qed.

Lemma run_without_question_witness :
  invoke Declared id (graph (stub_world "resposta" []) notebook_globals)
    (<["respostas" := PList []]> ∅)
  = ([EvEnter "router"], Raise (KeyError (PStr "question"))).
Proof.
  apply run_without_question; [intros l; reflexivity|reflexivity].
Defined.






(** ** Runs once [get_retriever] is bound *)

Lemma merge_cons (w : pydict) (ws : list pydict) :
  merge (w :: ws)
  = match merge ws with
    | Ok m => if decide (w ##ₘ m) then Ok (w ∪ m) else Raise InvalidUpdateError
    | Raise e => Raise e
    end.
Proof. reflexivity. Qed.

Lemma merge_same_channel (k : string) (v : pyval) (n : nat) :
  merge (replicate (S (S n)) {[k := v]}) = Raise InvalidUpdateError.
Proof.
  induction n as [|n IH].
  - cbn [replicate]. rewrite merge_cons, merge_singleton.
    rewrite decide_False; [reflexivity|].
    intros Hd%map_disjoint_singleton_l. by rewrite lookup_singleton_eq in Hd.
  - change (replicate (S (S (S n))) ({[k := v]} : pydict))
      with (({[k := v]} : pydict) :: replicate (S (S n)) {[k := v]}).
    by rewrite merge_cons, IH.
Qed.

Lemma combina_bound W m st q (answers : list string) :
  st !! "respostas" = Some (PList (PStr <$> answers)) →
  st !! "question" = Some q →
  combina W (with_get_retriever m) st
  = say (EvLLM (combina_prompt W q answers))
      (mret {["answer" := PStr (generate W (combina_prompt W q answers))]}).
Proof.
  intros Hr Hq. unfold combina, getitem, lookup_name, template_of.
  rewrite Hr. mnorm. rewrite str_items_strings. mnorm.
  rewrite with_get_retriever_other by done.
  rewrite globals_prompt_combina, Hq. mnorm.
  rewrite format_combina. mnorm. rewrite llm_invoke_bound. by mnorm.
Qed.

(** [GraphState] declares [respostas] as a plain list, a channel that takes
    one write per superstep. So even with [get_retriever] bound and every
    key of the router's update kept, a question routed to two or three
    specialists gives no answer: each specialist writes [respostas] in the
    same superstep and the run raises [InvalidUpdateError], whatever the
    model, the stores and the order of completion. *)
Theorem concurrent_specialists_conflict (W : World) (m : VectorStoreManager)
    (sched : list string → list string) (input : pydict) (q r : pyval)
    (old : list pyval) (ds : list string) :
  (∀ l, sched l ≡ₚ l) →
  input !! "question" = Some q →
  dict_get input "respostas" (PList []) = PList old →
  result (router W (with_get_retriever m) input) = Ok {["routes" := r]} →
  result (destinations route_map r) = Ok ds →
  2 ≤ length (scheduled ds) →
  result (invoke Every sched (graph W (with_get_retriever m)) input)
  = Raise InvalidUpdateError.
Proof.
  intros Hsched Hq Hold Hr Hds Hlen. unfold graph. rewrite invoke_eq by done.
  unfold agente_produtos, agente_processos, agente_rh.
  rewrite result_run_from_same by done. unfold run_result.
  rewrite !writes_of_wiring, !writes_of_Every, Hr, writes_of_Every.
  rewrite (lookup_union_Some_l _ _ _ r) by apply lookup_singleton_eq.
  rewrite Hds.
  destruct (length (scheduled ds)) as [|[|n]]; [lia|lia|].
  unfold join_result.
  rewrite (agente_bound W m _ q)
    by (rewrite lookup_union_r by (by apply lookup_singleton_ne); exact Hq).
  rewrite !result_say.
  assert (Hget : dict_get ({["routes" := r]} ∪ input) "respostas" (PList []) = PList old).
  { unfold dict_get in *. by rewrite lookup_union_r by (by apply lookup_singleton_ne). }
  rewrite Hget. cbn [list_add]. rewrite ret_bind.
  change (result (mret ?x)) with (Ok x). cbv beta iota.
  by rewrite writes_of_Every, merge_same_channel.
Qed.

Lemma concurrent_specialists_conflict_witness :
  result (invoke Every id
            (graph (stub_world (dominios_json ["rh"; "processos"; "produtos"]) ["p1"])
               (with_get_retriever rh_manager)) estado_inicial)
  = Raise InvalidUpdateError.
Proof.
  apply (concurrent_specialists_conflict _ _ _ _ (PStr pergunta)
           (PList [PStr "rh"; PStr "processos"; PStr "produtos"]) []
           ["rh"; "processos"; "produtos"]).
  - intros l. reflexivity.
  - vm_compute. reflexivity.
  - vm_compute. reflexivity.
  - vm_compute. reflexivity.
  - vm_compute. reflexivity.
  - vm_compute. lia.
Defined.


